(** * Bluetooth glue layers: the Security Module gRPC facade and the
      [BluetoothHapClient] binder proxy

    Shallow embedding of [system/gd/security/facade.cc].  The file holds two
    units: the C++ module [SecurityModuleFacadeModule] (dependency wiring and
    life cycle) and the Java class [android.bluetooth.BluetoothHapClient]
    (one binder round trip per public method). *)

From Stdlib Require Import ZArith List Ascii String Bool Lia.
Import ListNotations.
Local Open Scope Z_scope.

(* ------------------------------------------------------------------------ *)
(** ** Part I: [bluetooth::security::SecurityModuleFacadeModule] *)
(* ------------------------------------------------------------------------ *)

Module Facade.

(** A module type is identified in the registry by the address of its static
    [Factory]; the four named in [ListDependencies] get a constructor each. *)
Inductive ModuleFactory : Type :=
| SecurityModule_Factory
| L2capLeModule_Factory
| L2capClassicModule_Factory
| HciLayer_Factory
| Other_Factory (name : string).

(** [ModuleList] is declared in module.h, which the file only includes: a
    sequence of factories to which [add<T>()] appends [&T::Factory]. *)
Definition ModuleList : Type := list ModuleFactory.

Definition add (T : ModuleFactory) (list : ModuleList) : ModuleList :=
  list ++ [T].

(** C++ pointers to objects kept in a typed store. *)
Inductive pointer : Type :=
| nullptr
| ref (addr : nat).

Section Module_.

(** The other modules of the stack and the OS handler are reached through
    pointers only. *)
Variable ModulePtr : Type.
Variable HandlerPtr : Type.

(** State owned by the base classes ([Module], [GrpcFacadeModule]): the
    dependency registry, the handler, the gRPC plumbing. *)
Variable GrpcFacadeModule : Type.

(** Base-class members used by the file and defined elsewhere. *)
Variable GrpcFacadeModule_ListDependencies : ModuleList -> ModuleList.
Variable GrpcFacadeModule_Start : GrpcFacadeModule -> GrpcFacadeModule.
Variable GrpcFacadeModule_Stop : GrpcFacadeModule -> GrpcFacadeModule.
Variable GetDependency : GrpcFacadeModule -> ModuleFactory -> ModulePtr.
Variable GetHandler : GrpcFacadeModule -> HandlerPtr.

(** The four private members of the service class. *)
Record SecurityModuleFacadeService : Type := {
  security_module_ : ModulePtr;
  l2cap_le_module_ : ModulePtr;
  l2cap_classic_module_ : ModulePtr;
  security_handler_ : HandlerPtr
}.

(** The constructor takes five arguments; [hci_layer] is accepted and not
    stored. *)
Definition new_SecurityModuleFacadeService
    (security_module l2cap_le_module l2cap_classic_module hci_layer : ModulePtr)
    (security_handler : HandlerPtr) : SecurityModuleFacadeService :=
  {| security_module_ := security_module;
     l2cap_le_module_ := l2cap_le_module;
     l2cap_classic_module_ := l2cap_classic_module;
     security_handler_ := security_handler |}.

(** Free store of facade services: cell [a] is [Some s] while the object
    allocated at [a] is alive and [None] once deleted. *)
Definition Heap : Type := list (option SecurityModuleFacadeService).

(** Writing an object into cell [a], the store growing with dead cells up
    to [a] when it is shorter. *)
Fixpoint store_cell (a : nat) (s : SecurityModuleFacadeService) (h : Heap)
  : Heap :=
  match a, h with
  | O, [] => [Some s]
  | O, _ :: h' => Some s :: h'
  | S a', [] => None :: store_cell a' s []
  | S a', c :: h' => c :: store_cell a' s h'
  end.

(** [new T(...)].  Which address the allocator returns is its own business:
    [a] is that address, an input of the model.  The allocator hands out
    storage that holds no live object, fresh or freed by an earlier
    [delete]; the statements below assume that much of [a] and no more. *)
Definition new (a : nat) (s : SecurityModuleFacadeService) (h : Heap)
  : pointer * Heap :=
  (ref a, store_cell a s h).

Fixpoint clear_cell (a : nat) (h : Heap) : Heap :=
  match h, a with
  | [], _ => []
  | _ :: h', O => None :: h'
  | c :: h', S a' => c :: clear_cell a' h'
  end.

Definition delete (p : pointer) (h : Heap) : Heap :=
  match p with
  | nullptr => h
  | ref a => clear_cell a h
  end.

Definition deref (p : pointer) (h : Heap) : option SecurityModuleFacadeService :=
  match p with
  | nullptr => None
  | ref a => match nth_error h a with
             | Some (Some s) => Some s
             | _ => None
             end
  end.

(** The module object together with the store its [service_] points into. *)
Record SecurityModuleFacadeModule : Type := {
  base : GrpcFacadeModule;
  service_ : pointer;
  heap : Heap
}.

Definition ListDependencies (list : ModuleList) : ModuleList :=
  let list := GrpcFacadeModule_ListDependencies list in
  let list := add SecurityModule_Factory list in
  let list := add L2capLeModule_Factory list in
  let list := add L2capClassicModule_Factory list in
  let list := add HciLayer_Factory list in
  list.

(** The calls [Start] makes on code outside the class, in the order it makes
    them, with the arguments it passes. *)
Inductive Call : Type :=
| Call_GrpcFacadeModule_Start
| Call_new_SecurityModuleFacadeService
    (security_module l2cap_le_module l2cap_classic_module hci_layer : ModulePtr)
    (security_handler : HandlerPtr).

(** [Start], with the address [a] its [new] expression obtains: the calls
    made and the module afterwards.  The base class is started first; the
    five constructor arguments are then read from the started base. *)
Definition Start_run (a : nat) (m : SecurityModuleFacadeModule)
  : list Call * SecurityModuleFacadeModule :=
  let m := {| base := GrpcFacadeModule_Start (base m);
              service_ := service_ m;
              heap := heap m |} in
  let security_module := GetDependency (base m) SecurityModule_Factory in
  let l2cap_le_module := GetDependency (base m) L2capLeModule_Factory in
  let l2cap_classic_module := GetDependency (base m) L2capClassicModule_Factory in
  let hci_layer := GetDependency (base m) HciLayer_Factory in
  let security_handler := GetHandler (base m) in
  let '(p, h) :=
    new a
        (new_SecurityModuleFacadeService
           security_module l2cap_le_module l2cap_classic_module hci_layer
           security_handler)
        (heap m) in
  ([Call_GrpcFacadeModule_Start;
    Call_new_SecurityModuleFacadeService
      security_module l2cap_le_module l2cap_classic_module hci_layer
      security_handler],
   {| base := base m; service_ := p; heap := h |}).

Definition Start (a : nat) (m : SecurityModuleFacadeModule)
  : SecurityModuleFacadeModule :=
  snd (Start_run a m).

Definition Start_calls (a : nat) (m : SecurityModuleFacadeModule) : list Call :=
  fst (Start_run a m).

Definition Stop (m : SecurityModuleFacadeModule) : SecurityModuleFacadeModule :=
  let h := delete (service_ m) (heap m) in
  {| base := GrpcFacadeModule_Stop (base m);
     service_ := service_ m;
     heap := h |}.

Definition GetService (m : SecurityModuleFacadeModule) : pointer :=
  service_ m.

(** *** Store lemmas *)

Lemma deref_store_same (a : nat) (s : SecurityModuleFacadeService) (h : Heap) :
  deref (ref a) (store_cell a s h) = Some s.
Proof.
  unfold deref. revert h; induction a as [|a IH]; intros [|c h]; simpl; auto.
Qed.

Lemma deref_store_other (a a' : nat) (s : SecurityModuleFacadeService)
    (h : Heap) :
  a <> a' -> deref (ref a') (store_cell a s h) = deref (ref a') h.
Proof.
  unfold deref. revert a' h.
  induction a as [|a IH]; intros [|a'] [|c h] Hne; simpl;
    try congruence; try reflexivity.
  - now destruct a'.
  - rewrite IH by congruence. now destruct a'.
  - apply IH. congruence.
Qed.

Lemma length_clear_cell (a : nat) (h : Heap) :
  List.length (clear_cell a h) = List.length h.
Proof.
  revert a; induction h as [|c h IH]; intros [|a]; simpl; auto.
Qed.

Lemma deref_clear_same (a : nat) (h : Heap) :
  deref (ref a) (clear_cell a h) = None.
Proof.
  unfold deref. revert a; induction h as [|c h IH]; intros [|a]; simpl; auto.
Qed.

Lemma deref_clear_other (a a' : nat) (h : Heap) :
  a <> a' -> deref (ref a') (clear_cell a h) = deref (ref a') h.
Proof.
  unfold deref. revert a a'.
  induction h as [|c h IH]; intros [|a] [|a'] Hne; simpl; auto;
    congruence.
Qed.

Lemma add_app (T : ModuleFactory) (l : ModuleList) : add T l = l ++ [T].
Proof. reflexivity. Qed.

Lemma Start_eq (a : nat) (m : SecurityModuleFacadeModule) :
  Start a m =
    let b := GrpcFacadeModule_Start (base m) in
    let s := {| security_module_ := GetDependency b SecurityModule_Factory;
                l2cap_le_module_ := GetDependency b L2capLeModule_Factory;
                l2cap_classic_module_ :=
                  GetDependency b L2capClassicModule_Factory;
                security_handler_ := GetHandler b |} in
    {| base := b;
       service_ := ref a;
       heap := store_cell a s (heap m) |}.
Proof. reflexivity. Qed.

(** *** Dependency wiring *)

(** C5. [ListDependencies] leaves the list as the base class
    [GrpcFacadeModule::ListDependencies] made it and appends exactly four
    factories after it: [SecurityModule], [L2capLeModule],
    [L2capClassicModule] and [HciLayer], in that order. *)
Theorem ListDependencies_adds_four (list : ModuleList) :
  ListDependencies list =
    GrpcFacadeModule_ListDependencies list
      ++ [SecurityModule_Factory; L2capLeModule_Factory;
          L2capClassicModule_Factory; HciLayer_Factory].
Proof.
  unfold ListDependencies; cbv zeta.
  rewrite !add_app, <- !app_assoc.
  reflexivity.
Qed.

(** *** Life cycle *)

(** C7. [Start] first calls the base [GrpcFacadeModule::Start] and then
    the constructor of [SecurityModuleFacadeService] with five arguments:
    the [SecurityModule], [L2capLeModule], [L2capClassicModule] and
    [HciLayer] dependencies and the handler, all read from the base class as
    its own [Start] left it.  Afterwards [GetService] is the pointer [new]
    returned, and it points to a live service whose four members are the
    first three dependencies and the handler.  Every other cell of the store
    is as it was, and (the allocator returning storage without a live
    object) no object that was alive has been lost. *)
Theorem Start_then_GetService (a : nat) (m : SecurityModuleFacadeModule) :
  deref (ref a) (heap m) = None ->
  let b := GrpcFacadeModule_Start (base m) in
  let m' := Start a m in
  Start_calls a m =
    [Call_GrpcFacadeModule_Start;
     Call_new_SecurityModuleFacadeService
       (GetDependency b SecurityModule_Factory)
       (GetDependency b L2capLeModule_Factory)
       (GetDependency b L2capClassicModule_Factory)
       (GetDependency b HciLayer_Factory)
       (GetHandler b)]
  /\ base m' = b
  /\ GetService m' = ref a
  /\ deref (GetService m') (heap m') =
       Some {| security_module_ := GetDependency b SecurityModule_Factory;
               l2cap_le_module_ := GetDependency b L2capLeModule_Factory;
               l2cap_classic_module_ :=
                 GetDependency b L2capClassicModule_Factory;
               security_handler_ := GetHandler b |}
  /\ (forall a', a' <> a ->
        deref (ref a') (heap m') = deref (ref a') (heap m))
  /\ (forall a', deref (ref a') (heap m) <> None ->
        deref (ref a') (heap m') = deref (ref a') (heap m)).
Proof.
  intros Hfree. cbv zeta.
  split; [reflexivity|].
  rewrite Start_eq. unfold GetService; cbn [base service_ heap].
  split; [reflexivity|]. split; [reflexivity|].
  split; [apply deref_store_same|].
  split.
  - intros a' Hne. apply deref_store_other. congruence.
  - intros a' Hlive. apply deref_store_other.
    intros <-. now apply Hlive.
Qed.

(** [Stop] after [Start] deletes the service [Start] allocated and leaves the
    pointer dangling. *)
Lemma Stop_after_Start (a : nat) (m : SecurityModuleFacadeModule) :
  deref (GetService (Stop (Start a m))) (heap (Stop (Start a m))) = None.
Proof.
  rewrite Start_eq. unfold Stop, GetService; cbn.
  apply deref_clear_same.
Qed.

(** [Stop] on a module whose [service_] is null or points to a live service
    (deleting anything else is undefined in C++): the pointed object is
    destroyed and no other object is; [service_] is not reset, so
    [GetService] keeps returning the same, now dangling, pointer; the base
    class is stopped. *)
Theorem Stop_deletes_only_the_service (m : SecurityModuleFacadeModule) :
  service_ m = nullptr \/ deref (service_ m) (heap m) <> None ->
  let m' := Stop m in
  base m' = GrpcFacadeModule_Stop (base m)
  /\ GetService m' = GetService m
  /\ deref (GetService m') (heap m') = None
  /\ (forall a, ref a <> GetService m ->
        deref (ref a) (heap m') = deref (ref a) (heap m)).
Proof.
  intros _. cbv zeta. unfold Stop, GetService; cbn [base service_ heap].
  repeat split.
  - destruct (service_ m) as [|a]; [reflexivity|]. apply deref_clear_same.
  - intros a Hne. destruct (service_ m) as [|a0]; [reflexivity|].
    apply deref_clear_other. congruence.
Qed.

(** A module can be restarted.  After [Start], [Stop], [Start], whichever
    storage the second [new] obtains (the cell [Stop] freed, or another
    without a live object), [GetService] points to a live service built
    from the dependencies and the handler as the base class holds them
    after start, stop and start again; every other cell of the store holds
    what it held before the first [Start], so the first service is
    destroyed and not leaked, and no object that was alive has been lost. *)
Theorem Start_Stop_Start (a1 a2 : nat) (m : SecurityModuleFacadeModule) :
  deref (ref a1) (heap m) = None ->
  deref (ref a2) (heap (Stop (Start a1 m))) = None ->
  let b := GrpcFacadeModule_Start
             (GrpcFacadeModule_Stop (GrpcFacadeModule_Start (base m))) in
  let m' := Start a2 (Stop (Start a1 m)) in
  base m' = b
  /\ GetService m' = ref a2
  /\ deref (GetService m') (heap m') =
       Some {| security_module_ := GetDependency b SecurityModule_Factory;
               l2cap_le_module_ := GetDependency b L2capLeModule_Factory;
               l2cap_classic_module_ :=
                 GetDependency b L2capClassicModule_Factory;
               security_handler_ := GetHandler b |}
  /\ (forall a, a <> a2 ->
        deref (ref a) (heap m') = deref (ref a) (heap m))
  /\ (forall a, deref (ref a) (heap m) <> None ->
        deref (ref a) (heap m') = deref (ref a) (heap m)).
Proof.
  intros Hfree1 Hfree2. cbv zeta.
  assert (forall a, a <> a2 ->
            deref (ref a) (heap (Start a2 (Stop (Start a1 m))))
            = deref (ref a) (heap m)) as Hother.
  { intros a Hne.
    rewrite (Start_eq a2). cbv zeta. cbn [heap].
    rewrite deref_store_other by congruence.
    rewrite (Start_eq a1). unfold Stop; cbn [heap service_ delete].
    destruct (Nat.eq_dec a1 a) as [<-|Hne1].
    - now rewrite deref_clear_same, Hfree1.
    - rewrite deref_clear_other by exact Hne1.
      now apply deref_store_other. }
  assert (deref (ref a2) (heap m) = None) as Hfree2'.
  { destruct (Nat.eq_dec a1 a2) as [<-|Hne]; [exact Hfree1|].
    rewrite (Start_eq a1) in Hfree2. unfold Stop in Hfree2.
    cbn [heap service_ delete] in Hfree2.
    rewrite deref_clear_other in Hfree2 by exact Hne.
    now rewrite deref_store_other in Hfree2 by exact Hne. }
  split; [reflexivity|]. split; [reflexivity|].
  split.
  - rewrite (Start_eq a2). unfold GetService; cbn [service_ heap].
    apply deref_store_same.
  - split; [exact Hother|].
    intros a Hlive. apply Hother. intros ->. now apply Hlive.
Qed.

End Module_.

(** The [HciLayer] dependency is declared and fetched, and the constructor
    drops it: two registries that agree on the other three dependencies make
    [Start] build the same module state, whatever they hold for
    [HciLayer]. *)
Theorem Start_ignores_HciLayer
    (ModulePtr HandlerPtr GrpcFacadeModule : Type)
    (GrpcFacadeModule_Start : GrpcFacadeModule -> GrpcFacadeModule)
    (GetDependency GetDependency' : GrpcFacadeModule -> ModuleFactory -> ModulePtr)
    (GetHandler : GrpcFacadeModule -> HandlerPtr)
    (a : nat)
    (m : SecurityModuleFacadeModule ModulePtr HandlerPtr GrpcFacadeModule) :
  (forall b T, T <> HciLayer_Factory -> GetDependency b T = GetDependency' b T) ->
  Start ModulePtr HandlerPtr GrpcFacadeModule GrpcFacadeModule_Start
        GetDependency GetHandler a m
  = Start ModulePtr HandlerPtr GrpcFacadeModule GrpcFacadeModule_Start
          GetDependency' GetHandler a m.
Proof.
  intros Hagree. rewrite !Start_eq. cbv zeta.
  rewrite !Hagree by discriminate. reflexivity.
Qed.

(** [Start_ignores_HciLayer] on two registries of numbered modules that
    differ at [HciLayer] only. *)
Lemma Start_ignores_HciLayer_witness :
  let registry (hci : nat) (_ : unit) (T : ModuleFactory) : nat :=
    match T with
    | SecurityModule_Factory => 1%nat
    | L2capLeModule_Factory => 2%nat
    | L2capClassicModule_Factory => 3%nat
    | HciLayer_Factory => hci
    | Other_Factory _ => 0%nat
    end in
  let m := {| base := tt; service_ := nullptr; heap := [] |} in
  Start nat nat unit (fun b => b) (registry 4%nat) (fun _ => 9%nat) 0 m
  = Start nat nat unit (fun b => b) (registry 5%nat) (fun _ => 9%nat) 0 m.
Proof.
  cbv zeta.
  apply (Start_ignores_HciLayer nat nat unit (fun b => b)).
  intros b T HT. destruct T; try reflexivity. now elim HT.
Defined.

(** [Stop_deletes_only_the_service] on a module that was started once on an
    empty store. *)
Lemma Stop_deletes_only_the_service_witness :
  let service := {| security_module_ := 1%nat; l2cap_le_module_ := 2%nat;
                    l2cap_classic_module_ := 3%nat;
                    security_handler_ := 9%nat |} in
  let m := {| base := tt; service_ := ref 0; heap := [Some service] |} in
  let m' := Stop nat nat unit (fun b => b) m in
  base _ _ _ m' = tt
  /\ GetService _ _ _ m' = GetService _ _ _ m
  /\ deref _ _ (GetService _ _ _ m') (heap _ _ _ m') = None
  /\ (forall a, ref a <> GetService _ _ _ m ->
        deref _ _ (ref a) (heap _ _ _ m') = deref _ _ (ref a) (heap _ _ _ m)).
Proof.
  cbv zeta.
  apply (Stop_deletes_only_the_service nat nat unit (fun b => b)).
  right. discriminate.
Defined.

(** A small stack for the examples: modules and handlers are numbers, the
    base class counts how often it was started, and what the registry and
    [GetHandler] return depends on that count. *)
Definition sample_registry (b : nat) (T : ModuleFactory) : nat :=
  (10 * b + match T with
            | SecurityModule_Factory => 1
            | L2capLeModule_Factory => 2
            | L2capClassicModule_Factory => 3
            | HciLayer_Factory => 4
            | Other_Factory _ => 0
            end)%nat.

Definition sample_handler (b : nat) : nat := (10 * b + 9)%nat.

Definition sample_Start : nat ->
    SecurityModuleFacadeModule nat nat nat ->
    SecurityModuleFacadeModule nat nat nat :=
  Start nat nat nat S sample_registry sample_handler.

Definition sample_Stop :
    SecurityModuleFacadeModule nat nat nat ->
    SecurityModuleFacadeModule nat nat nat :=
  Stop nat nat nat (fun b => b).

Definition sample_module : SecurityModuleFacadeModule nat nat nat :=
  {| base := 0%nat; service_ := nullptr; heap := [] |}.

(** [Start_then_GetService] on a module that was never started, the
    allocator returning address 2. *)
Lemma Start_then_GetService_witness :
  let m' := sample_Start 2 sample_module in
  Start_calls nat nat nat S sample_registry sample_handler 2 sample_module
  = [Call_GrpcFacadeModule_Start nat nat;
     Call_new_SecurityModuleFacadeService nat nat 11%nat 12%nat 13%nat 14%nat
       19%nat]
  /\ base _ _ _ m' = 1%nat
  /\ GetService _ _ _ m' = ref 2
  /\ deref _ _ (GetService _ _ _ m') (heap _ _ _ m')
     = Some {| security_module_ := 11%nat; l2cap_le_module_ := 12%nat;
               l2cap_classic_module_ := 13%nat; security_handler_ := 19%nat |}
  /\ (forall a', a' <> 2%nat ->
        deref _ _ (ref a') (heap _ _ _ m')
        = deref _ _ (ref a') (heap _ _ _ sample_module))
  /\ (forall a', deref _ _ (ref a') (heap _ _ _ sample_module) <> None ->
        deref _ _ (ref a') (heap _ _ _ m')
        = deref _ _ (ref a') (heap _ _ _ sample_module)).
Proof.
  cbv zeta.
  apply (Start_then_GetService nat nat nat S sample_registry sample_handler
                               2 sample_module).
  reflexivity.
Defined.

(** [Start_Stop_Start] when the second [new] obtains the cell the first
    service occupied. *)
Lemma Start_Stop_Start_witness :
  let m' := sample_Start 0 (sample_Stop (sample_Start 0 sample_module)) in
  base _ _ _ m' = 2%nat
  /\ GetService _ _ _ m' = ref 0
  /\ deref _ _ (GetService _ _ _ m') (heap _ _ _ m')
     = Some {| security_module_ := 21%nat; l2cap_le_module_ := 22%nat;
               l2cap_classic_module_ := 23%nat; security_handler_ := 29%nat |}
  /\ (forall a, a <> 0%nat ->
        deref _ _ (ref a) (heap _ _ _ m')
        = deref _ _ (ref a) (heap _ _ _ sample_module))
  /\ (forall a, deref _ _ (ref a) (heap _ _ _ sample_module) <> None ->
        deref _ _ (ref a) (heap _ _ _ m')
        = deref _ _ (ref a) (heap _ _ _ sample_module)).
Proof.
  cbv zeta.
  apply (Start_Stop_Start nat nat nat S (fun b => b) sample_registry
                          sample_handler 0 0 sample_module);
    reflexivity.
Defined.

End Facade.


(* ------------------------------------------------------------------------ *)
(** ** Part II: [android.bluetooth.BluetoothHapClient] *)
(* ------------------------------------------------------------------------ *)

Module HapClient.

(** *** Java values *)

(** Throwables.  [RemoteException] and [TimeoutException] are the two checked
    exceptions the [catch] clauses of the class list.  Any other throwable
    is unchecked (a [RuntimeException] or an [Error], such as the
    [SecurityException] behind the [@RequiresPermission] annotations, or a
    [NullPointerException]) and is kept by class name. *)
Inductive Throwable : Type :=
| RemoteException
| TimeoutException
| Unchecked (className : string).

Definition NullPointerException : Throwable :=
  Unchecked "java.lang.NullPointerException".

(** A [BluetoothDevice] is used through [getAddress()] only.  A Java
    reference may be [null]: a parameter of class type [C] is an
    [option C]. *)
Record BluetoothDevice : Type := { address : string }.

(** [CloseGuard]: [open(closer)] records the name of the closing method. *)
Record CloseGuard : Type := { closer : option string }.

(** How a method finishes: with a value, or abruptly with a throwable. *)
Inductive Completion (A : Type) : Type :=
| Normal (a : A)
| Abrupt (e : Throwable).
Arguments Normal {A} a.
Arguments Abrupt {A} e.

(** Result types of the [IBluetoothHapClient] calls the class makes:
    [Boolean], [Integer] and [List] (of devices). *)
Inductive RetTy : Type := TBoolean | TInteger | TList.

Definition value (t : RetTy) : Type :=
  match t with
  | TBoolean => bool
  | TInteger => Z
  | TList => list BluetoothDevice
  end.

(** What [recv.awaitResultNoInterrupt(getSyncTimeout())] does: it raises (a
    [TimeoutException] when nothing arrived in time), or it yields the
    result, whose payload may be [null]. *)
Inductive Await (T : Type) : Type :=
| AwaitRaises (e : Throwable)
| Delivered (r : option T).
Arguments AwaitRaises {T} e.
Arguments Delivered {T} r.

(** What a call on the binder stub does: it raises (a [RemoteException] when
    the transaction fails), or it is accepted and the receiver will hold the
    service's answer. *)
Inductive Reply (T : Type) : Type :=
| CallRaises (e : Throwable)
| Accepted (a : Await T).
Arguments CallRaises {T} e.
Arguments Accepted {T} a.

(** [Result.getValue(defaultValue)] of the receiver library (not part of the
    file): the payload, or [defaultValue] when the payload is [null]. *)
Definition getValue {T : Type} (r : option T) (defaultValue : T) : T :=
  match r with
  | Some v => v
  | None => defaultValue
  end.

(** [catch (RemoteException | TimeoutException e)]: the classes the clause
    matches. *)
Definition caught (e : Throwable) : bool :=
  match e with
  | RemoteException | TimeoutException => true
  | Unchecked _ => false
  end.

(** Lines written to the system log. *)
Inductive LogLine : Type :=
| Log_d_line (tag msg : string)
| Log_w_line (tag msg : string)
| Log_e_line (tag : string) (e : Throwable).

Definition TAG : string := "BluetoothHapClient".
Definition DBG : bool := false.
Definition VDBG : bool := false.

Section Platform.

(** Constants of [BluetoothProfile], [BluetoothAdapter] and
    [IBluetoothHapClient], whose declarations are outside the file. *)
Variable CONNECTION_POLICY_FORBIDDEN : Z.
Variable CONNECTION_POLICY_ALLOWED : Z.
Variable STATE_DISCONNECTED : Z.
Variable STATE_ON : Z.
Variable GROUP_ID_UNAVAILABLE : Z.

(** [BluetoothAdapter.checkBluetoothAddress], a static method defined
    elsewhere. *)
Variable checkBluetoothAddress : string -> bool.

(** [AttributionSource] is opaque to the class: obtained from the adapter and
    handed to every call. *)
Context {AttributionSource : Type}.

Definition HAP_GROUP_UNAVAILABLE : Z := GROUP_ID_UNAVAILABLE.

(** The calls of the AIDL interface [IBluetoothHapClient] that the class
    makes, with the arguments it passes (the receiver argument is the
    [Reply]). *)
Inductive Request : RetTy -> Type :=
| Svc_setConnectionPolicy (device : option BluetoothDevice) (connectionPolicy : Z)
    (source : AttributionSource) : Request TBoolean
| Svc_getConnectionPolicy (device : option BluetoothDevice)
    (source : AttributionSource) : Request TInteger
| Svc_getConnectedDevices (source : AttributionSource) : Request TList
| Svc_getDevicesMatchingConnectionStates (states : list Z)
    (source : AttributionSource) : Request TList
| Svc_getConnectionState (device : option BluetoothDevice)
    (source : AttributionSource) : Request TInteger
| Svc_getHapGroup (device : option BluetoothDevice)
    (source : AttributionSource) : Request TInteger
| Svc_getActivePresetIndex (device : option BluetoothDevice)
    (source : AttributionSource) : Request TBoolean
| Svc_selectActivePreset (device : option BluetoothDevice) (presetIndex : Z)
    (source : AttributionSource) : Request TBoolean
| Svc_groupSelectActivePreset (groupId presetIndex : Z)
    (source : AttributionSource) : Request TBoolean
| Svc_nextActivePreset (device : option BluetoothDevice)
    (source : AttributionSource) : Request TBoolean
| Svc_groupNextActivePreset (groupId : Z)
    (source : AttributionSource) : Request TBoolean
| Svc_previousActivePreset (device : option BluetoothDevice)
    (source : AttributionSource) : Request TBoolean
| Svc_groupPreviousActivePreset (groupId : Z)
    (source : AttributionSource) : Request TBoolean
| Svc_getPresetInfo (device : option BluetoothDevice) (presetIndex : Z)
    (source : AttributionSource) : Request TBoolean
| Svc_getAllPresetsInfo (device : option BluetoothDevice)
    (source : AttributionSource) : Request TBoolean
| Svc_getFeatures (device : option BluetoothDevice)
    (source : AttributionSource) : Request TBoolean
| Svc_setPresetName (device : option BluetoothDevice) (presetIndex : Z)
    (name : string) (source : AttributionSource) : Request TBoolean
| Svc_groupSetPresetName (groupId presetIndex : Z) (name : string)
    (source : AttributionSource) : Request TBoolean.

(** The remote service seen from the proxy: its answer to each call. *)
Definition IBluetoothHapClient : Type :=
  forall t : RetTy, Request t -> Reply (value t).

(** One call that left the process through the binder stub. *)
Inductive Transaction : Type :=
| Tx {t : RetTy} (req : Request t).

(** The adapter, as far as the class queries it. *)
Record BluetoothAdapter : Type := {
  adapter_isEnabled : bool;
  adapter_getState : Z;
  adapter_getAttributionSource : AttributionSource
}.

(** [BluetoothProfileConnector]: [getService()] is the bound stub, or [null]
    while the proxy is not attached. *)
Record BluetoothProfileConnector : Type := {
  connector_getService : option IBluetoothHapClient
}.

(** The fields of a [BluetoothHapClient] object. *)
Record BluetoothHapClient : Type := {
  mCloseGuard : option CloseGuard;
  mAdapter : BluetoothAdapter;
  mAttributionSource : AttributionSource;
  mProfileConnector : BluetoothProfileConnector
}.

(** What a method can read and change: the receiver object, the calls sent
    to the service so far, and the system log. *)
Record World : Type := {
  this : BluetoothHapClient;
  binder : list Transaction;
  logcat : list LogLine
}.

(** *** The method monad: state passing with abrupt completion *)

Definition M (A : Type) : Type := World -> Completion A * World.

Definition ret {A : Type} (a : A) : M A := fun w => (Normal a, w).

Definition throw {A : Type} (e : Throwable) : M A := fun w => (Abrupt e, w).

Definition bind {A B : Type} (m : M A) (k : A -> M B) : M B :=
  fun w =>
    match m w with
    | (Normal a, w') => k a w'
    | (Abrupt e, w') => (Abrupt e, w')
    end.

Notation "x <- m ;; k" := (bind m (fun x => k))
  (at level 61, m at next level, right associativity).
Notation "m ;;; k" := (bind m (fun _ => k))
  (at level 61, right associativity).

(** [try { body } catch (RemoteException | TimeoutException e) { handler }] *)
Definition try_catch {A : Type} (body : M A) (handler : Throwable -> M A) : M A :=
  fun w =>
    match body w with
    | (Normal a, w') => (Normal a, w')
    | (Abrupt e, w') => if caught e then handler e w' else (Abrupt e, w')
    end.

(** [a && b] evaluates [b] only when [a] is true. *)
Definition andM (a b : M bool) : M bool :=
  x <- a ;; if x then b else ret false.
Infix "&&&" := andM (at level 40, left associativity).

Definition field {A : Type} (f : BluetoothHapClient -> A) : M A :=
  fun w => (Normal (f (this w)), w).

Definition Log_d (tag msg : string) : M unit :=
  fun w => (Normal tt,
            {| this := this w; binder := binder w;
               logcat := logcat w ++ [Log_d_line tag msg] |}).

Definition Log_w (tag msg : string) : M unit :=
  fun w => (Normal tt,
            {| this := this w; binder := binder w;
               logcat := logcat w ++ [Log_w_line tag msg] |}).

Definition Log_e (tag : string) (e : Throwable) : M unit :=
  fun w => (Normal tt,
            {| this := this w; binder := binder w;
               logcat := logcat w ++ [Log_e_line tag e] |}).

(** [service.m(args, recv)]: the transaction leaves the process; the stub
    raises, or the receiver will hold the answer. *)
Definition call {t : RetTy} (service : IBluetoothHapClient) (req : Request t)
  : M (Await (value t)) :=
  fun w =>
    let w' := {| this := this w; binder := binder w ++ [Tx req];
                 logcat := logcat w |} in
    match service t req with
    | CallRaises e => (Abrupt e, w')
    | Accepted a => (Normal a, w')
    end.

(** [recv.awaitResultNoInterrupt(getSyncTimeout())] *)
Definition awaitResultNoInterrupt {T : Type} (recv : Await T) : M (option T) :=
  match recv with
  | AwaitRaises e => throw e
  | Delivered r => ret r
  end.

(** [device.getAddress()]: a call through a reference. *)
Definition getAddress (device : option BluetoothDevice) : M string :=
  match device with
  | None => throw NullPointerException
  | Some d => ret (address d)
  end.

(** *** Private helpers of the class *)

Definition log (msg : string) : M unit := Log_d TAG msg.

(** [if (DBG) log(...)] and [if (VDBG) log(...)]: the text of a debug message
    (a rendering of the arguments, or a stack trace) is abbreviated to a
    label. *)
Definition debug (enabled : bool) (label : string) : M unit :=
  if enabled then log label else ret tt.

Definition getService : M (option IBluetoothHapClient) :=
  c <- field mProfileConnector ;; ret (connector_getService c).

Definition isEnabled : M bool :=
  a <- field mAdapter ;;
  if adapter_getState a =? STATE_ON then ret true else ret false.

Definition isValidDevice (device : option BluetoothDevice) : M bool :=
  match device with
  | None => ret false
  | Some _ =>
      a <- getAddress device ;;
      if checkBluetoothAddress a then ret true else ret false
  end.

(** [mAdapter.isEnabled()] *)
Definition mAdapter_isEnabled : M bool :=
  a <- field mAdapter ;; ret (adapter_isEnabled a).

(** The branch every public method takes when [service == null]. *)
Definition proxy_not_attached : M unit :=
  Log_w TAG "Proxy not attached to service" ;;;
  debug DBG "stack trace".

(** The body of every [try] block and its [catch] clause: make the call,
    wait for the answer, return its value; a caught exception is logged and
    control falls to the final [return defaultValue]. *)
Definition forward {t : RetTy} (service : IBluetoothHapClient)
    (req : Request t) (defaultValue : value t) : M (value t) :=
  try_catch
    (recv <- call service req ;;
     r <- awaitResultNoInterrupt recv ;;
     ret (getValue r defaultValue))
    (fun e => Log_e TAG e ;;; ret defaultValue).

(** *** Public methods

    Each method reads [getService()], fixes its [defaultValue], and either
    warns that the proxy is not attached, or tests its guard and forwards;
    every path that does not return from inside the [try] block ends at the
    final [return defaultValue]. *)

Definition setConnectionPolicy (device : option BluetoothDevice)
    (connectionPolicy : Z) : M bool :=
  debug DBG "setConnectionPolicy" ;;;
  service <- getService ;;
  let defaultValue := false in
  match service with
  | None => proxy_not_attached ;;; ret defaultValue
  | Some service =>
      ok <- mAdapter_isEnabled &&& isValidDevice device
            &&& ret ((connectionPolicy =? CONNECTION_POLICY_FORBIDDEN)
                     || (connectionPolicy =? CONNECTION_POLICY_ALLOWED))%bool ;;
      if ok then
        source <- field mAttributionSource ;;
        forward service (Svc_setConnectionPolicy device connectionPolicy source)
                defaultValue
      else ret defaultValue
  end.

Definition getConnectionPolicy (device : option BluetoothDevice) : M Z :=
  debug VDBG "getConnectionPolicy" ;;;
  service <- getService ;;
  let defaultValue := CONNECTION_POLICY_FORBIDDEN in
  match service with
  | None => proxy_not_attached ;;; ret defaultValue
  | Some service =>
      ok <- mAdapter_isEnabled &&& isValidDevice device ;;
      if ok then
        source <- field mAttributionSource ;;
        forward service (Svc_getConnectionPolicy device source) defaultValue
      else ret defaultValue
  end.

Definition getConnectedDevices : M (list BluetoothDevice) :=
  debug VDBG "getConnectedDevices()" ;;;
  service <- getService ;;
  let defaultValue := @nil BluetoothDevice in
  match service with
  | None => proxy_not_attached ;;; ret defaultValue
  | Some service =>
      ok <- isEnabled ;;
      if ok then
        source <- field mAttributionSource ;;
        forward service (Svc_getConnectedDevices source) defaultValue
      else ret defaultValue
  end.

Definition getDevicesMatchingConnectionStates (states : list Z)
  : M (list BluetoothDevice) :=
  debug VDBG "getDevicesMatchingConnectionStates()" ;;;
  service <- getService ;;
  let defaultValue := @nil BluetoothDevice in
  match service with
  | None => proxy_not_attached ;;; ret defaultValue
  | Some service =>
      ok <- isEnabled ;;
      if ok then
        source <- field mAttributionSource ;;
        forward service (Svc_getDevicesMatchingConnectionStates states source)
                defaultValue
      else ret defaultValue
  end.

Definition getConnectionState (device : option BluetoothDevice) : M Z :=
  debug VDBG "getConnectionState" ;;;
  service <- getService ;;
  let defaultValue := STATE_DISCONNECTED in
  match service with
  | None => proxy_not_attached ;;; ret defaultValue
  | Some service =>
      ok <- isEnabled &&& isValidDevice device ;;
      if ok then
        source <- field mAttributionSource ;;
        forward service (Svc_getConnectionState device source) defaultValue
      else ret defaultValue
  end.

Definition getHapGroup (device : option BluetoothDevice) : M Z :=
  service <- getService ;;
  let defaultValue := HAP_GROUP_UNAVAILABLE in
  match service with
  | None => proxy_not_attached ;;; ret defaultValue
  | Some service =>
      ok <- isEnabled &&& isValidDevice device ;;
      if ok then
        source <- field mAttributionSource ;;
        forward service (Svc_getHapGroup device source) defaultValue
      else ret defaultValue
  end.

Definition getActivePresetIndex (device : option BluetoothDevice) : M bool :=
  service <- getService ;;
  let defaultValue := false in
  match service with
  | None => proxy_not_attached ;;; ret defaultValue
  | Some service =>
      ok <- isEnabled &&& isValidDevice device ;;
      if ok then
        source <- field mAttributionSource ;;
        forward service (Svc_getActivePresetIndex device source) defaultValue
      else ret defaultValue
  end.

Definition selectActivePreset (device : option BluetoothDevice)
    (presetIndex : Z) : M bool :=
  service <- getService ;;
  let defaultValue := false in
  match service with
  | None => proxy_not_attached ;;; ret defaultValue
  | Some service =>
      ok <- isEnabled &&& isValidDevice device ;;
      if ok then
        source <- field mAttributionSource ;;
        forward service (Svc_selectActivePreset device presetIndex source)
                defaultValue
      else ret defaultValue
  end.

Definition groupSelectActivePreset (groupId presetIndex : Z) : M bool :=
  service <- getService ;;
  let defaultValue := false in
  match service with
  | None => proxy_not_attached ;;; ret defaultValue
  | Some service =>
      ok <- isEnabled ;;
      if ok then
        source <- field mAttributionSource ;;
        forward service (Svc_groupSelectActivePreset groupId presetIndex source)
                defaultValue
      else ret defaultValue
  end.

Definition nextActivePreset (device : option BluetoothDevice) : M bool :=
  service <- getService ;;
  let defaultValue := false in
  match service with
  | None => proxy_not_attached ;;; ret defaultValue
  | Some service =>
      ok <- isEnabled &&& isValidDevice device ;;
      if ok then
        source <- field mAttributionSource ;;
        forward service (Svc_nextActivePreset device source) defaultValue
      else ret defaultValue
  end.

Definition groupNextActivePreset (groupId : Z) : M bool :=
  service <- getService ;;
  let defaultValue := false in
  match service with
  | None => proxy_not_attached ;;; ret defaultValue
  | Some service =>
      ok <- isEnabled ;;
      if ok then
        source <- field mAttributionSource ;;
        forward service (Svc_groupNextActivePreset groupId source) defaultValue
      else ret defaultValue
  end.

Definition previousActivePreset (device : option BluetoothDevice) : M bool :=
  service <- getService ;;
  let defaultValue := false in
  match service with
  | None => proxy_not_attached ;;; ret defaultValue
  | Some service =>
      ok <- isEnabled &&& isValidDevice device ;;
      if ok then
        source <- field mAttributionSource ;;
        forward service (Svc_previousActivePreset device source) defaultValue
      else ret defaultValue
  end.

Definition groupPreviousActivePreset (groupId : Z) : M bool :=
  service <- getService ;;
  let defaultValue := false in
  match service with
  | None => proxy_not_attached ;;; ret defaultValue
  | Some service =>
      ok <- isEnabled ;;
      if ok then
        source <- field mAttributionSource ;;
        forward service (Svc_groupPreviousActivePreset groupId source)
                defaultValue
      else ret defaultValue
  end.

Definition getPresetInfo (device : option BluetoothDevice)
    (presetIndex : Z) : M bool :=
  service <- getService ;;
  let defaultValue := false in
  match service with
  | None => proxy_not_attached ;;; ret defaultValue
  | Some service =>
      ok <- isEnabled &&& isValidDevice device ;;
      if ok then
        source <- field mAttributionSource ;;
        forward service (Svc_getPresetInfo device presetIndex source)
                defaultValue
      else ret defaultValue
  end.

Definition getAllPresetsInfo (device : option BluetoothDevice) : M bool :=
  service <- getService ;;
  let defaultValue := false in
  match service with
  | None => proxy_not_attached ;;; ret defaultValue
  | Some service =>
      ok <- isEnabled &&& isValidDevice device ;;
      if ok then
        source <- field mAttributionSource ;;
        forward service (Svc_getAllPresetsInfo device source) defaultValue
      else ret defaultValue
  end.

Definition getFeatures (device : option BluetoothDevice) : M bool :=
  service <- getService ;;
  let defaultValue := false in
  match service with
  | None => proxy_not_attached ;;; ret defaultValue
  | Some service =>
      ok <- isEnabled &&& isValidDevice device ;;
      if ok then
        source <- field mAttributionSource ;;
        forward service (Svc_getFeatures device source) defaultValue
      else ret defaultValue
  end.

Definition setPresetName (device : option BluetoothDevice) (presetIndex : Z)
    (name : string) : M bool :=
  service <- getService ;;
  let defaultValue := false in
  match service with
  | None => proxy_not_attached ;;; ret defaultValue
  | Some service =>
      ok <- isEnabled &&& isValidDevice device ;;
      if ok then
        source <- field mAttributionSource ;;
        forward service (Svc_setPresetName device presetIndex name source)
                defaultValue
      else ret defaultValue
  end.

Definition groupSetPresetName (groupId presetIndex : Z) (name : string)
  : M bool :=
  service <- getService ;;
  let defaultValue := false in
  match service with
  | None => proxy_not_attached ;;; ret defaultValue
  | Some service =>
      ok <- isEnabled ;;
      if ok then
        source <- field mAttributionSource ;;
        forward service (Svc_groupSetPresetName groupId presetIndex name source)
                defaultValue
      else ret defaultValue
  end.

(** *** The public interface as one type

    An [Op] is one invocation of a public method with its arguments;
    [invoke] runs it. *)
Inductive Op : RetTy -> Type :=
| OpSetConnectionPolicy (device : option BluetoothDevice) (connectionPolicy : Z)
    : Op TBoolean
| OpGetConnectionPolicy (device : option BluetoothDevice) : Op TInteger
| OpGetConnectedDevices : Op TList
| OpGetDevicesMatchingConnectionStates (states : list Z) : Op TList
| OpGetConnectionState (device : option BluetoothDevice) : Op TInteger
| OpGetHapGroup (device : option BluetoothDevice) : Op TInteger
| OpGetActivePresetIndex (device : option BluetoothDevice) : Op TBoolean
| OpSelectActivePreset (device : option BluetoothDevice) (presetIndex : Z)
    : Op TBoolean
| OpGroupSelectActivePreset (groupId presetIndex : Z) : Op TBoolean
| OpNextActivePreset (device : option BluetoothDevice) : Op TBoolean
| OpGroupNextActivePreset (groupId : Z) : Op TBoolean
| OpPreviousActivePreset (device : option BluetoothDevice) : Op TBoolean
| OpGroupPreviousActivePreset (groupId : Z) : Op TBoolean
| OpGetPresetInfo (device : option BluetoothDevice) (presetIndex : Z)
    : Op TBoolean
| OpGetAllPresetsInfo (device : option BluetoothDevice) : Op TBoolean
| OpGetFeatures (device : option BluetoothDevice) : Op TBoolean
| OpSetPresetName (device : option BluetoothDevice) (presetIndex : Z)
    (name : string) : Op TBoolean
| OpGroupSetPresetName (groupId presetIndex : Z) (name : string) : Op TBoolean.

Definition invoke {t : RetTy} (op : Op t) : M (value t) :=
  match op in Op t return M (value t) with
  | OpSetConnectionPolicy device connectionPolicy =>
      setConnectionPolicy device connectionPolicy
  | OpGetConnectionPolicy device => getConnectionPolicy device
  | OpGetConnectedDevices => getConnectedDevices
  | OpGetDevicesMatchingConnectionStates states =>
      getDevicesMatchingConnectionStates states
  | OpGetConnectionState device => getConnectionState device
  | OpGetHapGroup device => getHapGroup device
  | OpGetActivePresetIndex device => getActivePresetIndex device
  | OpSelectActivePreset device presetIndex =>
      selectActivePreset device presetIndex
  | OpGroupSelectActivePreset groupId presetIndex =>
      groupSelectActivePreset groupId presetIndex
  | OpNextActivePreset device => nextActivePreset device
  | OpGroupNextActivePreset groupId => groupNextActivePreset groupId
  | OpPreviousActivePreset device => previousActivePreset device
  | OpGroupPreviousActivePreset groupId => groupPreviousActivePreset groupId
  | OpGetPresetInfo device presetIndex => getPresetInfo device presetIndex
  | OpGetAllPresetsInfo device => getAllPresetsInfo device
  | OpGetFeatures device => getFeatures device
  | OpSetPresetName device presetIndex name =>
      setPresetName device presetIndex name
  | OpGroupSetPresetName groupId presetIndex name =>
      groupSetPresetName groupId presetIndex name
  end.

(** *** Vocabulary of the statements *)

(** The stub the proxy is attached to, if any. *)
Definition attached (w : World) : option IBluetoothHapClient :=
  connector_getService (mProfileConnector (this w)).

(** The device argument of an invocation, for the methods that take one. *)
Definition deviceOf {t : RetTy} (op : Op t) : option (option BluetoothDevice) :=
  match op with
  | OpSetConnectionPolicy device _ | OpGetConnectionPolicy device
  | OpGetConnectionState device | OpGetHapGroup device
  | OpGetActivePresetIndex device | OpSelectActivePreset device _
  | OpNextActivePreset device | OpPreviousActivePreset device
  | OpGetPresetInfo device _ | OpGetAllPresetsInfo device
  | OpGetFeatures device | OpSetPresetName device _ _ => Some device
  | OpGetConnectedDevices | OpGetDevicesMatchingConnectionStates _
  | OpGroupSelectActivePreset _ _ | OpGroupNextActivePreset _
  | OpGroupPreviousActivePreset _ | OpGroupSetPresetName _ _ _ => None
  end.

(** The per-method default: [CONNECTION_POLICY_FORBIDDEN] for
    [getConnectionPolicy], [STATE_DISCONNECTED] for [getConnectionState],
    [HAP_GROUP_UNAVAILABLE] for [getHapGroup], the empty list for the two
    list methods, [false] for the boolean methods. *)
Definition defaultOf {t : RetTy} (op : Op t) : value t :=
  match op in Op t return value t with
  | OpGetConnectionPolicy _ => CONNECTION_POLICY_FORBIDDEN
  | OpGetConnectionState _ => STATE_DISCONNECTED
  | OpGetHapGroup _ => HAP_GROUP_UNAVAILABLE
  | OpGetConnectedDevices | OpGetDevicesMatchingConnectionStates _ => []
  | OpSetConnectionPolicy _ _ | OpGetActivePresetIndex _
  | OpSelectActivePreset _ _ | OpGroupSelectActivePreset _ _
  | OpNextActivePreset _ | OpGroupNextActivePreset _
  | OpPreviousActivePreset _ | OpGroupPreviousActivePreset _
  | OpGetPresetInfo _ _ | OpGetAllPresetsInfo _ | OpGetFeatures _
  | OpSetPresetName _ _ _ | OpGroupSetPresetName _ _ _ => false
  end.

(** The call an invocation makes on the stub when it forwards. *)
Definition requestOf {t : RetTy} (op : Op t) (source : AttributionSource)
  : Request t :=
  match op in Op t return Request t with
  | OpSetConnectionPolicy device connectionPolicy =>
      Svc_setConnectionPolicy device connectionPolicy source
  | OpGetConnectionPolicy device => Svc_getConnectionPolicy device source
  | OpGetConnectedDevices => Svc_getConnectedDevices source
  | OpGetDevicesMatchingConnectionStates states =>
      Svc_getDevicesMatchingConnectionStates states source
  | OpGetConnectionState device => Svc_getConnectionState device source
  | OpGetHapGroup device => Svc_getHapGroup device source
  | OpGetActivePresetIndex device => Svc_getActivePresetIndex device source
  | OpSelectActivePreset device presetIndex =>
      Svc_selectActivePreset device presetIndex source
  | OpGroupSelectActivePreset groupId presetIndex =>
      Svc_groupSelectActivePreset groupId presetIndex source
  | OpNextActivePreset device => Svc_nextActivePreset device source
  | OpGroupNextActivePreset groupId => Svc_groupNextActivePreset groupId source
  | OpPreviousActivePreset device => Svc_previousActivePreset device source
  | OpGroupPreviousActivePreset groupId =>
      Svc_groupPreviousActivePreset groupId source
  | OpGetPresetInfo device presetIndex =>
      Svc_getPresetInfo device presetIndex source
  | OpGetAllPresetsInfo device => Svc_getAllPresetsInfo device source
  | OpGetFeatures device => Svc_getFeatures device source
  | OpSetPresetName device presetIndex name =>
      Svc_setPresetName device presetIndex name source
  | OpGroupSetPresetName groupId presetIndex name =>
      Svc_groupSetPresetName groupId presetIndex name source
  end.

(** The value [isValidDevice] computes. *)
Definition validDevice (device : option BluetoothDevice) : bool :=
  match device with
  | None => false
  | Some d => checkBluetoothAddress (address d)
  end.

(** The adapter test a method consults: [mAdapter.isEnabled()] in
    [setConnectionPolicy] and [getConnectionPolicy], the private
    [isEnabled()] (state equal to [STATE_ON]) in all the others. *)
Definition adapterOn {t : RetTy} (op : Op t) (a : BluetoothAdapter) : bool :=
  match op with
  | OpSetConnectionPolicy _ _ | OpGetConnectionPolicy _ => adapter_isEnabled a
  | _ => adapter_getState a =? STATE_ON
  end.

(** The device test of a method: none for a method without device. *)
Definition deviceOk {t : RetTy} (op : Op t) : bool :=
  match deviceOf op with
  | Some device => validDevice device
  | None => true
  end.

(** The test on the connection policy, which [setConnectionPolicy] alone
    makes. *)
Definition policyOk {t : RetTy} (op : Op t) : bool :=
  match op with
  | OpSetConnectionPolicy _ connectionPolicy =>
      (connectionPolicy =? CONNECTION_POLICY_FORBIDDEN)
      || (connectionPolicy =? CONNECTION_POLICY_ALLOWED)
  | _ => true
  end.

(** All three tests of an invocation at once: it forwards exactly when this
    holds and the proxy is attached. *)
Definition guardsPass {t : RetTy} (op : Op t) (w : World) : bool :=
  adapterOn op (mAdapter (this w)) && deviceOk op && policyOk op.

Definition sent (w : World) (x : Transaction) : World :=
  {| this := this w; binder := binder w ++ [x]; logcat := logcat w |}.

Definition logged (w : World) (l : LogLine) : World :=
  {| this := this w; binder := binder w; logcat := logcat w ++ [l] |}.

(** *** How the helpers and the methods compute *)

Lemma isEnabled_eq (w : World) :
  isEnabled w = (Normal (adapter_getState (mAdapter (this w)) =? STATE_ON), w).
Proof.
  unfold isEnabled, bind, field, ret.
  now destruct (adapter_getState (mAdapter (this w)) =? STATE_ON).
Qed.

Lemma mAdapter_isEnabled_eq (w : World) :
  mAdapter_isEnabled w = (Normal (adapter_isEnabled (mAdapter (this w))), w).
Proof. reflexivity. Qed.

Lemma isValidDevice_eq (device : option BluetoothDevice) (w : World) :
  isValidDevice device w = (Normal (validDevice device), w).
Proof.
  destruct device as [d|]; [|reflexivity].
  unfold isValidDevice, getAddress, bind, ret; simpl.
  now destruct (checkBluetoothAddress (address d)).
Qed.

Lemma getService_eq (w : World) : getService w = (Normal (attached w), w).
Proof. reflexivity. Qed.

Lemma getService_bind {A : Type} (k : option IBluetoothHapClient -> M A)
    (w : World) :
  (service <- getService ;; k service) w = k (attached w) w.
Proof. reflexivity. Qed.

Lemma debug_off {A : Type} (label : string) (k : M A) (w : World) :
  (debug false label ;;; k) w = k w.
Proof. reflexivity. Qed.

Lemma andM_eq (a b : M bool) (x y : bool) (w : World) :
  a w = (Normal x, w) -> b w = (Normal y, w) ->
  (a &&& b) w = (Normal (x && y)%bool, w).
Proof.
  intros Ha Hb. unfold andM, bind. rewrite Ha.
  destruct x; [exact Hb | reflexivity].
Qed.

Lemma forward_eq {t : RetTy} (service : IBluetoothHapClient)
    (req : Request t) (d : value t) (w : World) :
  forward service req d w =
    match service t req with
    | CallRaises e | Accepted (AwaitRaises e) =>
        if caught e
        then (Normal d, logged (sent w (Tx req)) (Log_e_line TAG e))
        else (Abrupt e, sent w (Tx req))
    | Accepted (Delivered r) => (Normal (getValue r d), sent w (Tx req))
    end.
Proof.
  unfold forward, try_catch, call, bind.
  destruct (service t req) as [e|[e|r]]; simpl; try reflexivity;
    destruct (caught e); reflexivity.
Qed.

Lemma guarded_eq {A : Type} (g : M bool) (b : bool)
    (k : AttributionSource -> M A) (d : A) (w : World) :
  g w = (Normal b, w) ->
  (ok <- g ;;
   if ok then source <- field mAttributionSource ;; k source else ret d) w =
    if b then k (mAttributionSource (this w)) w else (Normal d, w).
Proof.
  intros Hg. unfold bind at 1. rewrite Hg. now destruct b.
Qed.

Ltac guard_value :=
  repeat first
    [ apply isEnabled_eq
    | apply mAdapter_isEnabled_eq
    | apply isValidDevice_eq
    | eapply andM_eq
    | reflexivity ].

Lemma invoke_eq {t : RetTy} (op : Op t) (w : World) :
  invoke op w =
    match attached w with
    | None =>
        (Normal (defaultOf op),
         logged w (Log_w_line TAG "Proxy not attached to service"))
    | Some service =>
        if (adapterOn op (mAdapter (this w)) && deviceOk op && policyOk op)%bool
        then forward service (requestOf op (mAttributionSource (this w)))
                     (defaultOf op) w
        else (Normal (defaultOf op), w)
    end.
Proof.
  destruct op; simpl;
    unfold setConnectionPolicy, getConnectionPolicy, getConnectedDevices,
      getDevicesMatchingConnectionStates, getConnectionState, getHapGroup,
      getActivePresetIndex, selectActivePreset, groupSelectActivePreset,
      nextActivePreset, groupNextActivePreset, previousActivePreset,
      groupPreviousActivePreset, getPresetInfo, getAllPresetsInfo,
      getFeatures, setPresetName, groupSetPresetName, deviceOk, policyOk;
    change DBG with false; change VDBG with false;
    rewrite ?debug_off, getService_bind;
    destruct (attached w) as [service|]; try reflexivity.
  all: cbn [deviceOf]; rewrite ?andb_true_r.
  all: erewrite guarded_eq; [reflexivity | guard_value].
Qed.

Lemma invoke_not_forwarded {t : RetTy} (op : Op t) (w : World) :
  attached w = None \/ guardsPass op w = false ->
  fst (invoke op w) = Normal (defaultOf op)
  /\ binder (snd (invoke op w)) = binder w.
Proof.
  intros H. rewrite invoke_eq. fold (guardsPass op w).
  destruct (attached w) as [service|]; [|now split].
  destruct H as [H|H]; [discriminate|].
  now rewrite H.
Qed.

Lemma invoke_forwarded {t : RetTy} (op : Op t) (w : World)
    (service : IBluetoothHapClient) :
  attached w = Some service -> guardsPass op w = true ->
  invoke op w =
    forward service (requestOf op (mAttributionSource (this w)))
            (defaultOf op) w.
Proof.
  intros Ha Hg. rewrite invoke_eq, Ha. fold (guardsPass op w).
  now rewrite Hg.
Qed.

Lemma forward_binder {t : RetTy} (service : IBluetoothHapClient)
    (req : Request t) (d : value t) (w : World) :
  binder (snd (forward service req d w)) = binder w ++ [Tx req].
Proof.
  rewrite forward_eq.
  destruct (service t req) as [e|[e|r]]; try destruct (caught e); reflexivity.
Qed.

Lemma forward_this {t : RetTy} (service : IBluetoothHapClient)
    (req : Request t) (d : value t) (w : World) :
  this (snd (forward service req d w)) = this w.
Proof.
  rewrite forward_eq.
  destruct (service t req) as [e|[e|r]]; try destruct (caught e); reflexivity.
Qed.

Lemma policyOk_iff (device : option BluetoothDevice) (connectionPolicy : Z) :
  policyOk (OpSetConnectionPolicy device connectionPolicy) = true <->
  connectionPolicy = CONNECTION_POLICY_FORBIDDEN
  \/ connectionPolicy = CONNECTION_POLICY_ALLOWED.
Proof.
  simpl. rewrite orb_true_iff, !Z.eqb_eq. reflexivity.
Qed.

(** *** Failure of a guard *)

(** C1. For every public method: when the service proxy is [null], or the
    adapter test the method consults fails, or the method takes a device and
    [isValidDevice] rejects it, the method completes normally with its
    per-method default ([defaultOf]: [false], [CONNECTION_POLICY_FORBIDDEN],
    [STATE_DISCONNECTED], the empty list, [HAP_GROUP_UNAVAILABLE]) and no
    call reaches the service. *)
Theorem guard_failure_returns_default {t : RetTy} (op : Op t) (w : World) :
  fst (getService w) = Normal None
  \/ adapterOn op (mAdapter (this w)) = false
  \/ (exists device, deviceOf op = Some device
                     /\ fst (isValidDevice device w) = Normal false) ->
  fst (invoke op w) = Normal (defaultOf op)
  /\ binder (snd (invoke op w)) = binder w.
Proof.
  intros H. apply invoke_not_forwarded.
  destruct H as [H|[H|(device & Hd & Hv)]].
  - left. rewrite getService_eq in H. simpl in H. congruence.
  - right. unfold guardsPass. now rewrite H.
  - right. unfold guardsPass, deviceOk. rewrite Hd.
    rewrite isValidDevice_eq in Hv. simpl in Hv.
    assert (validDevice device = false) as -> by congruence.
    now rewrite andb_false_r.
Qed.

(** C10. A [null] device, or a device whose address
    [checkBluetoothAddress] rejects, makes [isValidDevice] return [false]
    (normally: the [null] reference is not dereferenced), and every method
    that takes the device then completes normally with its default and sends
    nothing to the service, whatever the service and the adapter are. *)
Theorem invalid_device_never_throws (device : option BluetoothDevice)
    (w : World) :
  device = None
  \/ (exists d, device = Some d /\ checkBluetoothAddress (address d) = false) ->
  isValidDevice device w = (Normal false, w)
  /\ forall (t : RetTy) (op : Op t), deviceOf op = Some device ->
       fst (invoke op w) = Normal (defaultOf op)
       /\ binder (snd (invoke op w)) = binder w.
Proof.
  intros H.
  assert (validDevice device = false) as Hv.
  { destruct H as [->|(d & -> & Hc)]; [reflexivity | exact Hc]. }
  split.
  - now rewrite isValidDevice_eq, Hv.
  - intros t op Hd. apply invoke_not_forwarded. right.
    unfold guardsPass, deviceOk. rewrite Hd, Hv.
    now rewrite andb_false_r.
Qed.

(** C8. [setConnectionPolicy] with a policy that is neither
    [CONNECTION_POLICY_FORBIDDEN] nor [CONNECTION_POLICY_ALLOWED] returns
    [false] and sends nothing to the service, whatever the service, the
    adapter and the device are. *)
Theorem setConnectionPolicy_rejects_other_policies
    (device : option BluetoothDevice) (connectionPolicy : Z) (w : World) :
  connectionPolicy <> CONNECTION_POLICY_FORBIDDEN ->
  connectionPolicy <> CONNECTION_POLICY_ALLOWED ->
  fst (setConnectionPolicy device connectionPolicy w) = Normal false
  /\ binder (snd (setConnectionPolicy device connectionPolicy w)) = binder w.
Proof.
  intros HF HA.
  change (setConnectionPolicy device connectionPolicy)
    with (invoke (OpSetConnectionPolicy device connectionPolicy)).
  apply (invoke_not_forwarded (OpSetConnectionPolicy device connectionPolicy)).
  right. unfold guardsPass.
  destruct (policyOk (OpSetConnectionPolicy device connectionPolicy)) eqn:E.
  - apply policyOk_iff in E. tauto.
  - now rewrite andb_false_r.
Qed.

(** *** Exceptions on the forwarding path *)

(** C2 (amended). When the proxy is attached and the call an invocation
    forwards raises [e], at the call itself or while awaiting the result:
    if [e] is a [RemoteException] or a [TimeoutException], the method
    completes normally with its per-method default; if [e] is of any other
    class and the method does forward, [e] is not caught and the method
    completes abruptly with [e]. *)
Theorem checked_exceptions_caught {t : RetTy} (op : Op t) (w : World)
    (service : IBluetoothHapClient) (e : Throwable) :
  attached w = Some service ->
  service t (requestOf op (mAttributionSource (this w))) = CallRaises e
  \/ service t (requestOf op (mAttributionSource (this w)))
     = Accepted (AwaitRaises e) ->
  (e = RemoteException \/ e = TimeoutException ->
   fst (invoke op w) = Normal (defaultOf op))
  /\ (e <> RemoteException -> e <> TimeoutException ->
      guardsPass op w = true ->
      fst (invoke op w) = Abrupt e).
Proof.
  intros Ha Hr.
  destruct (guardsPass op w) eqn:Hg.
  - rewrite (invoke_forwarded op w service Ha Hg), forward_eq.
    split.
    + intros He.
      assert (caught e = true) as Hc by (destruct He; subst; reflexivity).
      destruct Hr as [-> | ->]; now rewrite Hc.
    + intros H1 H2 _.
      assert (caught e = false) as Hc by (destruct e; simpl; congruence).
      destruct Hr as [-> | ->]; now rewrite Hc.
  - split; [intros _ | discriminate].
    apply invoke_not_forwarded. now right.
Qed.

(** *** Forwarding *)

(** C3 (amended). Once the proxy is attached, the adapter test of the method
    passes and the device (when the method takes one) is valid: if the
    policy test passes, the invocation sends exactly one call to the
    service, carrying its arguments and [mAttributionSource], whatever the
    argument values are; and the policy test fails for [setConnectionPolicy]
    alone, with a policy that is neither [CONNECTION_POLICY_FORBIDDEN] nor
    [CONNECTION_POLICY_ALLOWED], which then returns [false] and sends
    nothing. *)
Theorem valid_call_is_forwarded {t : RetTy} (op : Op t) (w : World)
    (service : IBluetoothHapClient) :
  attached w = Some service ->
  adapterOn op (mAdapter (this w)) = true ->
  (forall device, deviceOf op = Some device -> validDevice device = true) ->
  (policyOk op = true ->
   binder (snd (invoke op w)) =
     binder w ++ [Tx (requestOf op (mAttributionSource (this w)))])
  /\ (policyOk op = false ->
      exists device connectionPolicy,
        existT Op t op
        = existT Op TBoolean (OpSetConnectionPolicy device connectionPolicy)
        /\ connectionPolicy <> CONNECTION_POLICY_FORBIDDEN
        /\ connectionPolicy <> CONNECTION_POLICY_ALLOWED
        /\ fst (setConnectionPolicy device connectionPolicy w) = Normal false
        /\ binder (snd (setConnectionPolicy device connectionPolicy w))
           = binder w).
Proof.
  intros Ha Hon Hd. split; intros Hp.
  - rewrite (invoke_forwarded op w service Ha).
    + apply forward_binder.
    + unfold guardsPass, deviceOk. rewrite Hon, Hp.
      destruct (deviceOf op) as [device|]; [|reflexivity].
      now rewrite (Hd device eq_refl).
  - destruct op; try discriminate Hp.
    exists device, connectionPolicy.
    split; [reflexivity|].
    assert (connectionPolicy <> CONNECTION_POLICY_FORBIDDEN
            /\ connectionPolicy <> CONNECTION_POLICY_ALLOWED) as [HF HA].
    { simpl in Hp. apply orb_false_iff in Hp as [H1 H2].
      now rewrite Z.eqb_neq in H1, H2. }
    split; [exact HF|]. split; [exact HA|].
    change (setConnectionPolicy device connectionPolicy)
      with (invoke (OpSetConnectionPolicy device connectionPolicy)).
    apply (invoke_not_forwarded
             (OpSetConnectionPolicy device connectionPolicy)).
    right. unfold guardsPass. rewrite Hp. now rewrite andb_false_r.
Qed.

(** C4. Whatever the integer [presetIndex] is (negative, above 255, any),
    once the proxy is attached and the adapter state is [STATE_ON],
    [groupSelectActivePreset] and [groupSetPresetName] send one call that
    carries that [presetIndex], and so do [selectActivePreset],
    [getPresetInfo] and [setPresetName] when the device is valid. *)
Theorem presetIndex_forwarded_unchanged (w : World)
    (service : IBluetoothHapClient) (device : option BluetoothDevice)
    (groupId presetIndex : Z) (name : string) :
  attached w = Some service ->
  adapter_getState (mAdapter (this w)) = STATE_ON ->
  let source := mAttributionSource (this w) in
  (validDevice device = true ->
   binder (snd (selectActivePreset device presetIndex w)) =
     binder w ++ [Tx (Svc_selectActivePreset device presetIndex source)]
   /\ binder (snd (getPresetInfo device presetIndex w)) =
        binder w ++ [Tx (Svc_getPresetInfo device presetIndex source)]
   /\ binder (snd (setPresetName device presetIndex name w)) =
        binder w ++ [Tx (Svc_setPresetName device presetIndex name source)])
  /\ binder (snd (groupSelectActivePreset groupId presetIndex w)) =
       binder w ++ [Tx (Svc_groupSelectActivePreset groupId presetIndex source)]
  /\ binder (snd (groupSetPresetName groupId presetIndex name w)) =
       binder w ++ [Tx (Svc_groupSetPresetName groupId presetIndex name source)].
Proof.
  intros Ha Hon source.
  assert (forall t (op : Op t),
            adapterOn op (mAdapter (this w)) = (adapter_getState (mAdapter (this w)) =? STATE_ON) ->
            deviceOk op = true -> policyOk op = true ->
            binder (snd (invoke op w)) = binder w ++ [Tx (requestOf op source)])
    as Hfw.
  { intros t op H1 H2 H3.
    rewrite (invoke_forwarded op w service Ha); [apply forward_binder|].
    unfold guardsPass. rewrite H1, H2, H3, Hon, Z.eqb_refl. reflexivity. }
  split; [intros Hv; repeat split | split].
  - apply (Hfw _ (OpSelectActivePreset device presetIndex)); auto.
  - apply (Hfw _ (OpGetPresetInfo device presetIndex)); auto.
  - apply (Hfw _ (OpSetPresetName device presetIndex name)); auto.
  - apply (Hfw _ (OpGroupSelectActivePreset groupId presetIndex)); auto.
  - apply (Hfw _ (OpGroupSetPresetName groupId presetIndex name)); auto.
Qed.

(** *** Frame *)

(** C6. An invocation leaves the four fields of the proxy object as they
    were, and a value it returns is its per-method default or the payload
    the service delivered for the call it sent. *)
Theorem operations_frame {t : RetTy} (op : Op t) (w : World) :
  let w' := snd (invoke op w) in
  mAdapter (this w') = mAdapter (this w)
  /\ mAttributionSource (this w') = mAttributionSource (this w)
  /\ mProfileConnector (this w') = mProfileConnector (this w)
  /\ mCloseGuard (this w') = mCloseGuard (this w)
  /\ forall v : value t, fst (invoke op w) = Normal v ->
       v = defaultOf op
       \/ exists service,
            attached w = Some service
            /\ service t (requestOf op (mAttributionSource (this w)))
               = Accepted (Delivered (Some v))
            /\ In (Tx (requestOf op (mAttributionSource (this w)))) (binder w').
Proof.
  cbv zeta.
  assert (this (snd (invoke op w)) = this w) as Hthis.
  { rewrite invoke_eq. destruct (attached w) as [service|]; [|reflexivity].
    destruct (_ && _ && _)%bool; [apply forward_this | reflexivity]. }
  rewrite Hthis. repeat split.
  intros v Hv. rewrite invoke_eq in Hv |- *.
  destruct (attached w) as [service|]; [|left; simpl in Hv; congruence].
  destruct (_ && _ && _)%bool; [|left; simpl in Hv; congruence].
  rewrite forward_binder. rewrite forward_eq in Hv.
  destruct (service t (requestOf op (mAttributionSource (this w))))
    as [e|[e|[x|]]] eqn:Hr;
    try (destruct (caught e); simpl in Hv; (discriminate || (left; congruence))).
  - right. exists service. simpl in Hv.
    assert (x = v) as -> by congruence.
    repeat split; auto.
    apply in_or_app. right. now left.
  - left. simpl in Hv. congruence.
Qed.

(* ------------------------------------------------------------------------ *)
(** *** Beyond the single guard: what is sent, returned and logged *)
(* ------------------------------------------------------------------------ *)

(** The calls an invocation sends from world [w]: one when the proxy is
    attached and the tests pass, none otherwise. *)
Definition callsOf {t : RetTy} (op : Op t) (w : World) : list Transaction :=
  match attached w with
  | Some _ =>
      if guardsPass op w
      then [Tx (requestOf op (mAttributionSource (this w)))]
      else []
  | None => []
  end.

(** The lines an invocation writes to the log from world [w]. *)
Definition linesOf {t : RetTy} (op : Op t) (w : World) : list LogLine :=
  match attached w with
  | None => [Log_w_line TAG "Proxy not attached to service"]
  | Some service =>
      if guardsPass op w then
        match service t (requestOf op (mAttributionSource (this w))) with
        | CallRaises e | Accepted (AwaitRaises e) =>
            if caught e then [Log_e_line TAG e] else []
        | Accepted (Delivered _) => []
        end
      else []
  end.

Lemma invoke_this {t : RetTy} (op : Op t) (w : World) :
  this (snd (invoke op w)) = this w.
Proof.
  rewrite invoke_eq. destruct (attached w) as [service|]; [|reflexivity].
  destruct (_ && _ && _)%bool; [apply forward_this | reflexivity].
Qed.

Lemma guardsPass_this {t : RetTy} (op : Op t) (w w' : World) :
  this w' = this w -> guardsPass op w' = guardsPass op w.
Proof. intros H. unfold guardsPass. now rewrite H. Qed.

Lemma callsOf_this {t : RetTy} (op : Op t) (w w' : World) :
  this w' = this w -> callsOf op w' = callsOf op w.
Proof.
  intros H. unfold callsOf, attached.
  now rewrite (guardsPass_this op w w' H), H.
Qed.

Lemma binder_after_invoke {t : RetTy} (op : Op t) (w : World) :
  binder (snd (invoke op w)) = binder w ++ callsOf op w.
Proof.
  rewrite invoke_eq. unfold callsOf. fold (guardsPass op w).
  destruct (attached w) as [service|]; simpl; [|now rewrite app_nil_r].
  destruct (guardsPass op w); [apply forward_binder|].
  simpl. now rewrite app_nil_r.
Qed.

(** An invocation sends at most one call, after those already sent, and it
    sends one exactly when the proxy is attached and the tests of the method
    pass.  What the service then does (answer, time out, raise) plays no
    part: a call that ends in the default value or in an exception has been
    sent all the same. *)
Theorem invoke_sends (t : RetTy) (op : Op t) (w : World) :
  binder (snd (invoke op w)) =
    binder w
    ++ match attached w with
       | Some _ =>
           if (adapterOn op (mAdapter (this w)) && deviceOk op && policyOk op)%bool
           then [Tx (requestOf op (mAttributionSource (this w)))]
           else []
       | None => []
       end.
Proof.
  exact (binder_after_invoke op w).
Qed.

(** When the call is forwarded and the service delivers a result, the method
    returns the payload as it is, or its default when the payload is
    [null]; the call is recorded as sent and nothing is logged. *)
Theorem delivered_value_is_returned {t : RetTy} (op : Op t) (w : World)
    (service : IBluetoothHapClient) (r : option (value t)) :
  attached w = Some service ->
  guardsPass op w = true ->
  service t (requestOf op (mAttributionSource (this w)))
  = Accepted (Delivered r) ->
  invoke op w =
    (Normal (match r with Some v => v | None => defaultOf op end),
     sent w (Tx (requestOf op (mAttributionSource (this w))))).
Proof.
  intros Ha Hg Hr.
  rewrite (invoke_forwarded op w service Ha Hg), forward_eq, Hr.
  now destruct r.
Qed.

(** The log after an invocation: one warning when the proxy is not
    attached; one error line naming the exception when the forwarded call
    raised a [RemoteException] or a [TimeoutException]; and nothing in every
    other case.  In particular a call dropped because the adapter is off,
    the device is invalid or the policy is not accepted leaves no trace. *)
Theorem invoke_logs (t : RetTy) (op : Op t) (w : World) :
  logcat (snd (invoke op w)) = logcat w ++ linesOf op w.
Proof.
  rewrite invoke_eq. unfold linesOf. fold (guardsPass op w).
  destruct (attached w) as [service|]; [|reflexivity].
  destruct (guardsPass op w); [|simpl; now rewrite app_nil_r].
  rewrite forward_eq.
  destruct (service t (requestOf op (mAttributionSource (this w))))
    as [e|[e|r]]; try destruct (caught e); simpl;
    now rewrite ?app_nil_r.
Qed.

(** Two invocations in a row: the first leaves the proxy object as it was,
    so the second is attached and passes its tests exactly as it would have
    from the start, and the calls reach the service in program order. *)
Theorem invocations_in_sequence (t1 t2 : RetTy) (op1 : Op t1) (op2 : Op t2)
    (w : World) :
  let w1 := snd (invoke op1 w) in
  attached w1 = attached w
  /\ guardsPass op2 w1 = guardsPass op2 w
  /\ binder (snd (invoke op2 w1)) = binder w ++ callsOf op1 w ++ callsOf op2 w.
Proof.
  cbv zeta.
  pose proof (invoke_this op1 w) as Hthis.
  split; [unfold attached; now rewrite Hthis|].
  split; [now apply guardsPass_this|].
  rewrite binder_after_invoke, (callsOf_this op2 w _ Hthis),
    binder_after_invoke.
  now rewrite app_assoc.
Qed.

(* ------------------------------------------------------------------------ *)
(** *** Construction, [close()] and [finalize()] *)
(* ------------------------------------------------------------------------ *)

(** Platform members the constructor and [close()] use, defined elsewhere:
    [BluetoothAdapter.getDefaultAdapter()] (which may be [null]), the state
    of the connector the field initialiser creates, and its [connect] and
    [disconnect]; and [CloseGuard.warnIfOpen()]. *)
Variable AndroidContext : Type.
Variable ServiceListener : Type.
Variable getDefaultAdapter : option BluetoothAdapter.
Variable new_BluetoothProfileConnector : BluetoothProfileConnector.
Variable connect :
  AndroidContext -> ServiceListener ->
  BluetoothProfileConnector -> BluetoothProfileConnector.
Variable disconnect : BluetoothProfileConnector -> BluetoothProfileConnector.
Variable warnIfOpen : CloseGuard -> M unit.

(** [new CloseGuard()] and [guard.open(closer)] *)
Definition new_CloseGuard : CloseGuard := {| closer := None |}.

Definition CloseGuard_open (name : string) (guard : CloseGuard) : CloseGuard :=
  {| closer := Some name |}.

(** The constructor.  [mAdapter.getAttributionSource()] is a call through
    the reference [getDefaultAdapter()] returned. *)
Definition new_BluetoothHapClient (context : AndroidContext)
    (listener : ServiceListener) : Completion BluetoothHapClient :=
  match getDefaultAdapter with
  | None => Abrupt NullPointerException
  | Some a =>
      Normal {| mCloseGuard := Some (CloseGuard_open "close" new_CloseGuard);
                mAdapter := a;
                mAttributionSource := adapter_getAttributionSource a;
                mProfileConnector :=
                  connect context listener new_BluetoothProfileConnector |}
  end.

Definition close : M unit :=
  fun w =>
    (Normal tt,
     {| this := {| mCloseGuard := mCloseGuard (this w);
                   mAdapter := mAdapter (this w);
                   mAttributionSource := mAttributionSource (this w);
                   mProfileConnector :=
                     disconnect (mProfileConnector (this w)) |};
        binder := binder w;
        logcat := logcat w |}).

Definition finalize : M unit :=
  guard <- field mCloseGuard ;;
  match guard with
  | Some g => warnIfOpen g
  | None => ret tt
  end ;;;
  close.

(** Without a default adapter the constructor raises a
    [NullPointerException] and no proxy comes to exist.  With one, every
    call that any method of the constructed proxy sends carries the
    attribution source of that adapter. *)
Theorem constructed_client_attributes_calls (context : AndroidContext)
    (listener : ServiceListener) :
  match new_BluetoothHapClient context listener with
  | Abrupt e => getDefaultAdapter = None /\ e = NullPointerException
  | Normal client =>
      exists a,
        getDefaultAdapter = Some a
        /\ mAdapter client = a
        /\ forall (t : RetTy) (op : Op t) (w : World),
             this w = client ->
             binder (snd (invoke op w)) = binder w
             \/ binder (snd (invoke op w)) =
                  binder w ++ [Tx (requestOf op (adapter_getAttributionSource a))]
  end.
Proof.
  unfold new_BluetoothHapClient.
  destruct getDefaultAdapter as [a|]; [|now split].
  exists a. repeat split.
  intros t op w Hw. rewrite binder_after_invoke. unfold callsOf.
  destruct (attached w); [|left; apply app_nil_r].
  destruct (guardsPass op w); [|left; apply app_nil_r].
  right. now rewrite Hw.
Qed.

(** No method releases the close guard.  On a proxy the constructor built,
    after any invocation and after [close()], the guard is still the one
    opened with ["close"]; [close()] has changed the connector only, and
    [finalize()] hands that open guard to [warnIfOpen] before closing
    again. *)
Theorem close_guard_stays_open (context : AndroidContext)
    (listener : ServiceListener) (client : BluetoothHapClient)
    (t : RetTy) (op : Op t) (w : World) :
  new_BluetoothHapClient context listener = Normal client ->
  this w = client ->
  let w1 := snd (invoke op w) in
  let w2 := snd (close w1) in
  mCloseGuard (this w2) = Some {| closer := Some "close"%string |}
  /\ mAdapter (this w2) = mAdapter client
  /\ mAttributionSource (this w2) = mAttributionSource client
  /\ mProfileConnector (this w2) = disconnect (mProfileConnector client)
  /\ binder w2 = binder w1
  /\ logcat w2 = logcat w1
  /\ finalize w2 =
       (warnIfOpen {| closer := Some "close"%string |} ;;; close) w2.
Proof.
  intros Hnew Hw. cbv zeta.
  pose proof (invoke_this op w) as Hthis. rewrite Hw in Hthis.
  assert (mCloseGuard client = Some {| closer := Some "close"%string |}) as Hg.
  { unfold new_BluetoothHapClient in Hnew.
    destruct getDefaultAdapter; [|discriminate].
    injection Hnew as <-. reflexivity. }
  unfold close at 1 2 3 4 5 6; cbn [snd this binder logcat mCloseGuard mAdapter
                                   mAttributionSource mProfileConnector].
  rewrite Hthis. repeat split; try assumption.
  unfold finalize, field, bind at 1 2. cbn [snd this mCloseGuard close].
  unfold close at 1. cbn [this mCloseGuard]. rewrite Hthis, Hg.
  reflexivity.
Qed.

End Platform.

(** *** Group methods *)

(** C9. For every integer [groupId], once the proxy is attached and the
    adapter state is [STATE_ON], each of [groupSelectActivePreset],
    [groupNextActivePreset], [groupPreviousActivePreset] and
    [groupSetPresetName] sends one call carrying that [groupId].  No device
    is checked: a method that takes no device runs the same whatever
    [checkBluetoothAddress] would answer. *)
Theorem group_operations_forward_groupId
    (FORBIDDEN ALLOWED DISCONNECTED STATE_ON UNAVAILABLE : Z)
    (checkBluetoothAddress : string -> bool) (AttributionSource : Type)
    (w : @World AttributionSource) (service : IBluetoothHapClient)
    (groupId presetIndex : Z) (name : string) :
  attached w = Some service ->
  adapter_getState (mAdapter (this w)) = STATE_ON ->
  let source := mAttributionSource (this w) in
  binder (snd (groupSelectActivePreset STATE_ON groupId presetIndex w)) =
    binder w ++ [Tx (Svc_groupSelectActivePreset groupId presetIndex source)]
  /\ binder (snd (groupNextActivePreset STATE_ON groupId w)) =
       binder w ++ [Tx (Svc_groupNextActivePreset groupId source)]
  /\ binder (snd (groupPreviousActivePreset STATE_ON groupId w)) =
       binder w ++ [Tx (Svc_groupPreviousActivePreset groupId source)]
  /\ binder (snd (groupSetPresetName STATE_ON groupId presetIndex name w)) =
       binder w ++ [Tx (Svc_groupSetPresetName groupId presetIndex name source)]
  /\ forall (check' : string -> bool) (t : RetTy) (op : Op t),
       deviceOf op = None ->
       invoke FORBIDDEN ALLOWED DISCONNECTED STATE_ON UNAVAILABLE check' op w =
       invoke FORBIDDEN ALLOWED DISCONNECTED STATE_ON UNAVAILABLE
              checkBluetoothAddress op w.
Proof.
  intros Ha Hon source.
  assert (forall t (op : Op t),
            deviceOf op = None ->
            policyOk FORBIDDEN ALLOWED op = true ->
            binder (snd (invoke FORBIDDEN ALLOWED DISCONNECTED STATE_ON
                                UNAVAILABLE checkBluetoothAddress op w)) =
              binder w ++ [Tx (requestOf op source)]) as Hfw.
  { intros t op Hd Hp.
    rewrite (invoke_forwarded _ _ _ _ _ _ op w service Ha);
      [apply forward_binder|].
    unfold guardsPass, deviceOk. rewrite Hd, Hp.
    destruct op; try discriminate Hd; simpl; rewrite Hon, Z.eqb_refl;
      reflexivity. }
  repeat split.
  - apply (Hfw _ (OpGroupSelectActivePreset groupId presetIndex)); reflexivity.
  - apply (Hfw _ (OpGroupNextActivePreset groupId)); reflexivity.
  - apply (Hfw _ (OpGroupPreviousActivePreset groupId)); reflexivity.
  - apply (Hfw _ (OpGroupSetPresetName groupId presetIndex name)); reflexivity.
  - intros check' t op Hd.
    destruct op; try discriminate Hd; reflexivity.
Qed.

(* ------------------------------------------------------------------------ *)
(** ** Broadcast actions and intent extras *)
(* ------------------------------------------------------------------------ *)

Definition ACTION_HAP_CONNECTION_STATE_CHANGED : string :=
  "android.bluetooth.action.HAP_CONNECTION_STATE_CHANGED".
Definition ACTION_HAP_DEVICE_AVAILABLE : string :=
  "android.bluetooth.action.HAP_DEVICE_AVAILABLE".
Definition ACTION_HAP_ON_DEVICE_FEATURES : string :=
  "android.bluetooth.action.HAP_ON_DEVICE_FEATURES".
Definition ACTION_HAP_ON_ACTIVE_PRESET : string :=
  "android.bluetooth.action.HAP_ON_ACTIVE_PRESET".
Definition ACTION_HAP_ON_ACTIVE_PRESET_SELECT_ERROR : string :=
  "android.bluetooth.action.HAP_ON_ACTIVE_PRESET_SELECT_ERROR".
Definition ACTION_HAP_ON_PRESET_INFO : string :=
  "android.bluetooth.action.HAP_ON_PRESET_INFO".
Definition ACTION_HAP_ON_PRESET_NAME_SET_ERROR : string :=
  "android.bluetooth.action.HAP_ON_PRESET_NAME_SET_ERROR".
Definition ACTION_HAP_ON_PRESET_INFO_GET_ERROR : string :=
  "android.bluetooth.action.HAP_ON_PRESET_INFO_GET_ERROR".

Definition EXTRA_HAP_FEATURES : string :=
  "android.bluetooth.extra.HAP_FEATURES".
Definition EXTRA_HAP_PRESET_INDEX : string :=
  "android.bluetooth.extra.HAP_PRESET_INDEX".
Definition EXTRA_HAP_STATUS_CODE : string :=
  "android.bluetooth.extra.HAP_STATUS_CODE".
Definition EXTRA_HAP_GROUP_ID : string :=
  "android.bluetooth.extra.HAP_GROUP_ID".
Definition EXTRA_HAP_PRESET_INFO_REASON : string :=
  "android.bluetooth.extra.HAP_PRESET_INFO_REASON".
Definition EXTRA_HAP_PRESET_INFO : string :=
  "android.bluetooth.extra.HAP_PRESET_INFO".

Definition actions : list string :=
  [ACTION_HAP_CONNECTION_STATE_CHANGED; ACTION_HAP_DEVICE_AVAILABLE;
   ACTION_HAP_ON_DEVICE_FEATURES; ACTION_HAP_ON_ACTIVE_PRESET;
   ACTION_HAP_ON_ACTIVE_PRESET_SELECT_ERROR; ACTION_HAP_ON_PRESET_INFO;
   ACTION_HAP_ON_PRESET_NAME_SET_ERROR; ACTION_HAP_ON_PRESET_INFO_GET_ERROR].

Definition extras : list string :=
  [EXTRA_HAP_FEATURES; EXTRA_HAP_PRESET_INDEX; EXTRA_HAP_STATUS_CODE;
   EXTRA_HAP_GROUP_ID; EXTRA_HAP_PRESET_INFO_REASON; EXTRA_HAP_PRESET_INFO].

(** Whether no string of the list occurs in it twice. *)
Fixpoint distinct (l : list string) : bool :=
  match l with
  | [] => true
  | x :: l' => negb (existsb (String.eqb x) l') && distinct l'
  end.

Lemma distinct_NoDup (l : list string) : distinct l = true -> NoDup l.
Proof.
  induction l as [|x l IH]; simpl; intros H; constructor;
    apply andb_true_iff in H as [Hx Hl]; [|now apply IH].
  intros Hin. apply negb_true_iff in Hx.
  assert (existsb (String.eqb x) l = true) as Hex; [|congruence].
  apply existsb_exists. exists x. split; [exact Hin | apply String.eqb_refl].
Qed.

(** The eight broadcast actions and the six extra keys the class declares
    are fourteen different names: a receiver that dispatches on the action,
    or reads an extra by key, never confuses two of them (one key being a
    prefix of another, as [EXTRA_HAP_PRESET_INFO] of
    [EXTRA_HAP_PRESET_INFO_REASON], notwithstanding).  Actions live under
    [android.bluetooth.action.] and extras under
    [android.bluetooth.extra.]. *)
Theorem intent_names_distinct :
  NoDup (actions ++ extras)
  /\ Forall (fun a => prefix "android.bluetooth.action." a = true) actions
  /\ Forall (fun x => prefix "android.bluetooth.extra." x = true) extras.
Proof.
  split; [apply distinct_NoDup; vm_compute; reflexivity|].
  split; repeat constructor.
Qed.

(* ------------------------------------------------------------------------ *)
(** ** A concrete platform

    The values the Android SDK gives the constants, its address syntax
    (six pairs of upper-case hexadecimal digits separated by colons), and a
    few services and worlds on which the statements above are exercised. *)
(* ------------------------------------------------------------------------ *)

Module Android.

Definition CONNECTION_POLICY_FORBIDDEN : Z := 0.
Definition CONNECTION_POLICY_ALLOWED : Z := 100.
Definition CONNECTION_POLICY_UNKNOWN : Z := -1.
Definition STATE_DISCONNECTED : Z := 0.
Definition STATE_ON : Z := 12.
Definition GROUP_ID_UNAVAILABLE : Z := -1.

Definition isUpperHex (c : Ascii.ascii) : bool :=
  let n := Ascii.nat_of_ascii c in
  ((48 <=? n) && (n <=? 57) || (65 <=? n) && (n <=? 70))%nat%bool.

Fixpoint checkFrom (i : nat) (s : string) : bool :=
  match s with
  | EmptyString => true
  | String c s' =>
      (match Nat.modulo i 3 with
       | 2%nat => Ascii.eqb c ":"%char
       | _ => isUpperHex c
       end && checkFrom (S i) s')%bool
  end.

Definition checkBluetoothAddress (a : string) : bool :=
  ((String.length a =? 17)%nat && checkFrom 0 a)%bool.

(** The attribution source is identified by a package name. *)
Definition AttributionSource : Type := string.
Definition package : AttributionSource := "com.example.hearing"%string.

Definition run {t : RetTy} (op : Op t) : @M AttributionSource (value t) :=
  invoke CONNECTION_POLICY_FORBIDDEN CONNECTION_POLICY_ALLOWED
         STATE_DISCONNECTED STATE_ON GROUP_ID_UNAVAILABLE
         checkBluetoothAddress op.

Definition hearingAid : option BluetoothDevice :=
  Some {| address := "00:1A:7D:DA:71:13" |}.

Definition malformed : option BluetoothDevice :=
  Some {| address := "00-1a-7d" |}.

(** A service that accepts every call and answers it. *)
Definition answering : @IBluetoothHapClient AttributionSource :=
  fun t _ =>
    Accepted (Delivered (Some (match t return value t with
                               | TBoolean => true
                               | TInteger => 7
                               | TList => [{| address := "00:1A:7D:DA:71:13" |}]
                               end))).

(** A service whose process died: every transaction fails. *)
Definition dead : @IBluetoothHapClient AttributionSource :=
  fun t _ => CallRaises RemoteException.

(** A service that never answers in time. *)
Definition silent : @IBluetoothHapClient AttributionSource :=
  fun t _ => Accepted (AwaitRaises TimeoutException).

(** A service that refuses the caller for lack of a permission. *)
Definition SecurityException : Throwable :=
  Unchecked "java.lang.SecurityException".

Definition denying : @IBluetoothHapClient AttributionSource :=
  fun t _ => CallRaises SecurityException.

Definition adapter (enabled : bool) (state : Z)
  : @BluetoothAdapter AttributionSource :=
  {| adapter_isEnabled := enabled;
     adapter_getState := state;
     adapter_getAttributionSource := package |}.

(** A proxy object as its constructor leaves it, with the connector in the
    given state, and nothing sent or logged yet. *)
Definition world (a : @BluetoothAdapter AttributionSource)
    (service : option (@IBluetoothHapClient AttributionSource))
  : @World AttributionSource :=
  {| this := {| mCloseGuard := Some {| closer := Some "close"%string |};
                mAdapter := a;
                mAttributionSource := adapter_getAttributionSource a;
                mProfileConnector := {| connector_getService := service |} |};
     binder := [];
     logcat := [] |}.

Definition on : @BluetoothAdapter AttributionSource := adapter true STATE_ON.
Definition off : @BluetoothAdapter AttributionSource := adapter false 10.

(** *** Sanity checks of the model on the concrete platform *)

Example checkBluetoothAddress_samples :
  validDevice checkBluetoothAddress hearingAid = true
  /\ validDevice checkBluetoothAddress malformed = false
  /\ validDevice checkBluetoothAddress None = false.
Proof. repeat split. Qed.

Example getHapGroup_answered :
  run (OpGetHapGroup hearingAid) (world on (Some answering)) =
    (Normal 7,
     sent (world on (Some answering))
          (Tx (Svc_getHapGroup hearingAid package))).
Proof. reflexivity. Qed.

Example getConnectedDevices_adapter_off :
  run OpGetConnectedDevices (world off (Some answering)) =
    (Normal [], world off (Some answering)).
Proof. reflexivity. Qed.

Example nextActivePreset_timeout :
  run (OpNextActivePreset hearingAid) (world on (Some silent)) =
    (Normal false,
     logged (sent (world on (Some silent))
                  (Tx (Svc_nextActivePreset hearingAid package)))
            (Log_e_line TAG TimeoutException)).
Proof. reflexivity. Qed.

(** *** The theorems at concrete inputs *)

(** [guard_failure_returns_default] on a detached proxy, on an adapter that
    is off, and on a malformed address. *)
Lemma guard_failure_returns_default_witness :
  (fst (getService (world on None)) = Normal None
   /\ fst (run (OpGetHapGroup hearingAid) (world on None))
      = Normal GROUP_ID_UNAVAILABLE
   /\ binder (snd (run (OpGetHapGroup hearingAid) (world on None))) = [])
  /\ (adapterOn STATE_ON OpGetConnectedDevices (mAdapter (this (world off (Some answering))))
      = false
      /\ fst (run OpGetConnectedDevices (world off (Some answering))) = Normal []
      /\ binder (snd (run OpGetConnectedDevices (world off (Some answering)))) = [])
  /\ (fst (isValidDevice checkBluetoothAddress malformed (world on (Some answering)))
      = Normal false
      /\ fst (run (OpGetConnectionState malformed) (world on (Some answering)))
         = Normal STATE_DISCONNECTED
      /\ binder (snd (run (OpGetConnectionState malformed)
                          (world on (Some answering)))) = []).
Proof.
  split; [|split]; (split; [reflexivity|]).
  - apply (@guard_failure_returns_default
             CONNECTION_POLICY_FORBIDDEN CONNECTION_POLICY_ALLOWED
             STATE_DISCONNECTED STATE_ON GROUP_ID_UNAVAILABLE
             checkBluetoothAddress AttributionSource
             _ (OpGetHapGroup hearingAid) (world on None)).
    left. reflexivity.
  - apply (@guard_failure_returns_default
             CONNECTION_POLICY_FORBIDDEN CONNECTION_POLICY_ALLOWED
             STATE_DISCONNECTED STATE_ON GROUP_ID_UNAVAILABLE
             checkBluetoothAddress AttributionSource
             _ OpGetConnectedDevices (world off (Some answering))).
    right; left. reflexivity.
  - apply (@guard_failure_returns_default
             CONNECTION_POLICY_FORBIDDEN CONNECTION_POLICY_ALLOWED
             STATE_DISCONNECTED STATE_ON GROUP_ID_UNAVAILABLE
             checkBluetoothAddress AttributionSource
             _ (OpGetConnectionState malformed) (world on (Some answering))).
    right; right. exists malformed. split; reflexivity.
Defined.

(** [invalid_device_never_throws] on the [null] device, with
    [setPresetName]. *)
Lemma invalid_device_never_throws_witness :
  isValidDevice checkBluetoothAddress None (world on (Some answering))
  = (Normal false, world on (Some answering))
  /\ fst (run (OpSetPresetName None 1 "Outdoor") (world on (Some answering)))
     = Normal false
  /\ binder (snd (run (OpSetPresetName None 1 "Outdoor")
                      (world on (Some answering)))) = [].
Proof.
  pose proof (@invalid_device_never_throws
                CONNECTION_POLICY_FORBIDDEN CONNECTION_POLICY_ALLOWED
                STATE_DISCONNECTED STATE_ON GROUP_ID_UNAVAILABLE
                checkBluetoothAddress AttributionSource
                None (world on (Some answering)) (or_introl eq_refl))
    as [Hv Hops].
  split; [exact Hv|].
  exact (Hops _ (OpSetPresetName None 1 "Outdoor") eq_refl).
Defined.

(** [setConnectionPolicy_rejects_other_policies] at
    [CONNECTION_POLICY_UNKNOWN]. *)
Lemma setConnectionPolicy_rejects_other_policies_witness :
  fst (run (OpSetConnectionPolicy hearingAid CONNECTION_POLICY_UNKNOWN)
           (world on (Some answering))) = Normal false
  /\ binder (snd (run (OpSetConnectionPolicy hearingAid CONNECTION_POLICY_UNKNOWN)
                      (world on (Some answering)))) = [].
Proof.
  apply (@setConnectionPolicy_rejects_other_policies
           CONNECTION_POLICY_FORBIDDEN CONNECTION_POLICY_ALLOWED
           STATE_DISCONNECTED STATE_ON GROUP_ID_UNAVAILABLE
           checkBluetoothAddress AttributionSource
           hearingAid CONNECTION_POLICY_UNKNOWN (world on (Some answering)));
    discriminate.
Defined.

(** [checked_exceptions_caught] on a dead service (the call raises
    [RemoteException]), on a silent one (awaiting raises
    [TimeoutException]) and on a denying one (the call raises a
    [SecurityException]). *)
Lemma checked_exceptions_caught_witness :
  fst (run OpGetConnectedDevices (world on (Some dead))) = Normal []
  /\ fst (run (OpGetConnectionPolicy hearingAid) (world on (Some silent)))
     = Normal CONNECTION_POLICY_FORBIDDEN
  /\ fst (run (OpGetFeatures hearingAid) (world on (Some denying)))
     = Abrupt SecurityException.
Proof.
  split; [|split].
  - apply (@checked_exceptions_caught
             CONNECTION_POLICY_FORBIDDEN CONNECTION_POLICY_ALLOWED
             STATE_DISCONNECTED STATE_ON GROUP_ID_UNAVAILABLE
             checkBluetoothAddress AttributionSource
             _ OpGetConnectedDevices (world on (Some dead)) dead
             RemoteException eq_refl (or_introl eq_refl)).
    left. reflexivity.
  - apply (@checked_exceptions_caught
             CONNECTION_POLICY_FORBIDDEN CONNECTION_POLICY_ALLOWED
             STATE_DISCONNECTED STATE_ON GROUP_ID_UNAVAILABLE
             checkBluetoothAddress AttributionSource
             _ (OpGetConnectionPolicy hearingAid) (world on (Some silent)) silent
             TimeoutException eq_refl (or_intror eq_refl)).
    right. reflexivity.
  - apply (@checked_exceptions_caught
             CONNECTION_POLICY_FORBIDDEN CONNECTION_POLICY_ALLOWED
             STATE_DISCONNECTED STATE_ON GROUP_ID_UNAVAILABLE
             checkBluetoothAddress AttributionSource
             _ (OpGetFeatures hearingAid) (world on (Some denying)) denying
             SecurityException eq_refl (or_introl eq_refl));
      [discriminate | discriminate | reflexivity].
Defined.

(** C2 as stated fails: the proxy is attached, the adapter is on, the call
    [getConnectedDevices] is forwarded and the stub raises a
    [SecurityException]; the [catch] clause does not match it and the method
    completes abruptly, so an exception from the forwarding path reaches the
    caller. *)
Lemma unchecked_exception_propagates :
  attached (world on (Some denying)) = Some denying
  /\ denying TList (Svc_getConnectedDevices package) = CallRaises SecurityException
  /\ run OpGetConnectedDevices (world on (Some denying))
     = (Abrupt SecurityException,
        sent (world on (Some denying)) (Tx (Svc_getConnectedDevices package)))
  /\ fst (run OpGetConnectedDevices (world on (Some denying))) <> Normal [].
Proof.
  repeat split. discriminate.
Qed.

(** [valid_call_is_forwarded] on [setConnectionPolicy] with
    [CONNECTION_POLICY_ALLOWED] and on [getPresetInfo] with index 300. *)
Lemma valid_call_is_forwarded_witness :
  binder (snd (run (OpSetConnectionPolicy hearingAid CONNECTION_POLICY_ALLOWED)
                   (world on (Some answering))))
  = [Tx (Svc_setConnectionPolicy hearingAid CONNECTION_POLICY_ALLOWED package)]
  /\ binder (snd (run (OpGetPresetInfo hearingAid 300) (world on (Some dead))))
     = [Tx (Svc_getPresetInfo hearingAid 300 package)].
Proof.
  split.
  - refine (proj1 (@valid_call_is_forwarded
                     CONNECTION_POLICY_FORBIDDEN CONNECTION_POLICY_ALLOWED
                     STATE_DISCONNECTED STATE_ON GROUP_ID_UNAVAILABLE
                     checkBluetoothAddress AttributionSource
                     _ (OpSetConnectionPolicy hearingAid CONNECTION_POLICY_ALLOWED)
                     (world on (Some answering)) answering eq_refl eq_refl _)
                  eq_refl).
    intros device [= <-]; reflexivity.
  - refine (proj1 (@valid_call_is_forwarded
                     CONNECTION_POLICY_FORBIDDEN CONNECTION_POLICY_ALLOWED
                     STATE_DISCONNECTED STATE_ON GROUP_ID_UNAVAILABLE
                     checkBluetoothAddress AttributionSource
                     _ (OpGetPresetInfo hearingAid 300)
                     (world on (Some dead)) dead eq_refl eq_refl _)
                  eq_refl).
    intros device [= <-]; reflexivity.
Defined.

(** C3 as stated fails: the proxy is attached, the adapter is enabled and
    the device is valid, yet [setConnectionPolicy] with
    [CONNECTION_POLICY_UNKNOWN] returns [false] and leaves the world as it
    was: nothing has been sent. *)
Lemma unknown_policy_not_forwarded :
  attached (world on (Some answering)) = Some answering
  /\ adapter_isEnabled (mAdapter (this (world on (Some answering)))) = true
  /\ adapter_getState (mAdapter (this (world on (Some answering)))) = STATE_ON
  /\ fst (isValidDevice checkBluetoothAddress hearingAid (world on (Some answering)))
     = Normal true
  /\ run (OpSetConnectionPolicy hearingAid CONNECTION_POLICY_UNKNOWN)
         (world on (Some answering))
     = (Normal false, world on (Some answering))
  /\ binder (snd (run (OpSetConnectionPolicy hearingAid CONNECTION_POLICY_UNKNOWN)
                      (world on (Some answering))))
     <> binder (world on (Some answering))
        ++ [Tx (Svc_setConnectionPolicy hearingAid CONNECTION_POLICY_UNKNOWN package)].
Proof.
  repeat split. discriminate.
Qed.

(** [presetIndex_forwarded_unchanged] at a negative index and at one above
    255. *)
Lemma presetIndex_forwarded_unchanged_witness :
  binder (snd (run (OpSelectActivePreset hearingAid (-1))
                   (world on (Some answering))))
  = [Tx (Svc_selectActivePreset hearingAid (-1) package)]
  /\ binder (snd (run (OpGroupSetPresetName 2 4096 "Concert")
                      (world on (Some answering))))
     = [Tx (Svc_groupSetPresetName 2 4096 "Concert" package)].
Proof.
  split.
  - apply (@presetIndex_forwarded_unchanged
             CONNECTION_POLICY_FORBIDDEN CONNECTION_POLICY_ALLOWED
             STATE_DISCONNECTED STATE_ON GROUP_ID_UNAVAILABLE
             checkBluetoothAddress AttributionSource
             (world on (Some answering)) answering hearingAid 2 (-1) "Concert"
             eq_refl eq_refl).
    reflexivity.
  - apply (@presetIndex_forwarded_unchanged
             CONNECTION_POLICY_FORBIDDEN CONNECTION_POLICY_ALLOWED
             STATE_DISCONNECTED STATE_ON GROUP_ID_UNAVAILABLE
             checkBluetoothAddress AttributionSource
             (world on (Some answering)) answering hearingAid 2 4096 "Concert"
             eq_refl eq_refl).
Defined.

(** [group_operations_forward_groupId] at a negative group identifier. *)
Lemma group_operations_forward_groupId_witness :
  binder (snd (run (OpGroupNextActivePreset (-5)) (world on (Some answering))))
  = [Tx (Svc_groupNextActivePreset (-5) package)]
  /\ run (OpGroupNextActivePreset (-5)) (world on (Some answering))
     = invoke CONNECTION_POLICY_FORBIDDEN CONNECTION_POLICY_ALLOWED
              STATE_DISCONNECTED STATE_ON GROUP_ID_UNAVAILABLE
              (fun _ => false) (OpGroupNextActivePreset (-5))
              (world on (Some answering)).
Proof.
  pose proof (@group_operations_forward_groupId
                CONNECTION_POLICY_FORBIDDEN CONNECTION_POLICY_ALLOWED
                STATE_DISCONNECTED STATE_ON GROUP_ID_UNAVAILABLE
                checkBluetoothAddress AttributionSource
                (world on (Some answering)) answering (-5) 0 "Concert"
                eq_refl eq_refl) as (_ & Hnext & _ & _ & Hsame).
  split; [exact Hnext|].
  symmetry.
  exact (Hsame (fun _ => false) _ (OpGroupNextActivePreset (-5)) eq_refl).
Defined.

(** [delivered_value_is_returned] on [getConnectionState] against the
    answering service (payload 7). *)
Lemma delivered_value_is_returned_witness :
  run (OpGetConnectionState hearingAid) (world on (Some answering))
  = (Normal 7,
     sent (world on (Some answering))
          (Tx (Svc_getConnectionState hearingAid package))).
Proof.
  apply (@delivered_value_is_returned
           CONNECTION_POLICY_FORBIDDEN CONNECTION_POLICY_ALLOWED
           STATE_DISCONNECTED STATE_ON GROUP_ID_UNAVAILABLE
           checkBluetoothAddress AttributionSource
           _ (OpGetConnectionState hearingAid) (world on (Some answering))
           answering (Some 7) eq_refl eq_refl eq_refl).
Defined.

(** A platform for the constructor: a default adapter that is on, a
    connector that attaches to the answering service at once and detaches on
    [disconnect], and a [warnIfOpen] that logs when the guard is open. *)
Definition bound : @BluetoothProfileConnector AttributionSource :=
  {| connector_getService := Some answering |}.

Definition unbound : @BluetoothProfileConnector AttributionSource :=
  {| connector_getService := None |}.

Definition warnIfOpen (guard : CloseGuard) : @M AttributionSource unit :=
  match closer guard with
  | Some name => Log_w "CloseGuard" name
  | None => ret tt
  end.

(** [close_guard_stays_open] on that platform, with [getFeatures] as the
    invocation before [close()]. *)
Lemma close_guard_stays_open_witness :
  let w := world on (Some answering) in
  let w1 := snd (run (OpGetFeatures hearingAid) w) in
  let w2 := snd (close (fun _ => unbound) w1) in
  mCloseGuard (this w2) = Some {| closer := Some "close"%string |}
  /\ mAdapter (this w2) = on
  /\ mAttributionSource (this w2) = package
  /\ mProfileConnector (this w2) = unbound
  /\ binder w2 = binder w1
  /\ logcat w2 = logcat w1
  /\ finalize (fun _ => unbound) warnIfOpen w2
     = (bind (warnIfOpen {| closer := Some "close"%string |})
             (fun _ => close (fun _ => unbound))) w2.
Proof.
  cbv zeta.
  apply (@close_guard_stays_open
           CONNECTION_POLICY_FORBIDDEN CONNECTION_POLICY_ALLOWED
           STATE_DISCONNECTED STATE_ON GROUP_ID_UNAVAILABLE
           checkBluetoothAddress AttributionSource
           unit unit (Some on) unbound (fun _ _ _ => bound) (fun _ => unbound)
           warnIfOpen tt tt (this (world on (Some answering)))
           _ (OpGetFeatures hearingAid) (world on (Some answering))
           eq_refl eq_refl).
Defined.

End Android.

End HapClient.
